(** * THREAT/crawl: the workday scheduler and the control signals

    A shallow embedding of
      - [crawler/crawler_time_controller.py]  (class [CrawlerTimeController]),
      - [crawler/crawler_main.py]             (status report, the crawl loop),
      - [crawler/captcha_solver.py], [cli/crawl_command.py],
        [cli/captcha_command.py], [cli/cli.py] (the control signals),
    and the properties of the scheduling and pause/resume/terminate core.

    Conventions.
      - An instant ([datetime]) is an integer number of seconds on one
        absolute time line, the fractions of a second of the clock left
        out; a [timedelta(seconds=n)] is the integer [n].
        Every operation receives the reading of the clock as its argument
        [now]: this is [datetime.now().astimezone(timezone)], the instant
        itself.  [timezone.localize(datetime.now())] is a different
        reading, the host's wall clock taken as a wall clock of the
        controller's zone: see [localize_now].
      - [queue.Queue] is a list whose head is the front ([put] adds at the
        back, [get] removes the head, [queue[0]] is the head).
      - [collections.deque] is a list whose head is the LEFT end and whose
        last element is the RIGHT end ([appendleft], [append], [pop],
        [q[-1]], in-place [reverse]).
      - [random.randint] draws from an explicit oracle, an endless sequence
        of raw draws; a [while] loop is bounded by fuel. *)

From Stdlib Require Import ZArith List Bool Lia String Sorted.
Import ListNotations.
Open Scope Z_scope.

Set Implicit Arguments.

(** ** The double-ended queue of Python's [collections] *)

Module Deque.

(** [q.appendleft(x)] *)
Definition appendleft {A : Type} (x : A) (q : list A) : list A := x :: q.

(** [q.append(x)] *)
Definition append {A : Type} (x : A) (q : list A) : list A := q ++ [x].

(** [q[-1]]: the right-most element, [None] standing for [IndexError]. *)
Fixpoint peek {A : Type} (q : list A) : option A :=
  match q with
  | [] => None
  | [x] => Some x
  | _ :: q' => peek q'
  end.

(** What is left of [q] after [q.pop()]. *)
Fixpoint pop_rest {A : Type} (q : list A) : list A :=
  match q with
  | [] => []
  | [_] => []
  | x :: q' => x :: pop_rest q'
  end.

(** [q.pop()]: the right-most element and the remaining deque. *)
Definition pop {A : Type} (q : list A) : option (A * list A) :=
  match peek q with
  | Some x => Some (x, pop_rest q)
  | None => None
  end.

(** [q.reverse()], which reverses the deque in place. *)
Definition reverse {A : Type} (q : list A) : list A := rev q.

End Deque.

(** ** The time controller *)

Module TimeController.

(** A queue entry: the tuple [(start time, duration in seconds)]. *)
Definition entry : Type := (Z * Z)%type.

(** The attributes of [CrawlerTimeController] that the schedule uses.
    [end_crawling_time] and [ctl_start_time] are [None] until the schedule
    has been generated. *)
Record controller : Type := mkController {
  break_queue : list entry;
  interrupt_queue : list entry;
  end_crawling_time : option Z;
  ctl_start_time : option Z
}.

(** The state [__init__] builds before the schedule is generated. *)
Definition init : controller :=
  mkController [] [] None None.

Definition set_break_queue (c : controller) (q : list entry) : controller :=
  mkController q (interrupt_queue c) (end_crawling_time c) (ctl_start_time c).

Definition set_interrupt_queue (c : controller) (q : list entry) : controller :=
  mkController (break_queue c) q (end_crawling_time c) (ctl_start_time c).

(** What a call leaves behind: a value, or the exception it raised. *)
Inductive result (A : Type) : Type :=
| Value (a : A)
| ValueError.
Arguments ValueError {A}.

(** [self.__timezone.localize(datetime.now())] at the instant [now].
    [datetime.now()] is the wall clock of the host, [host_offset] seconds
    ahead of UTC, without a zone; [localize] attaches the controller's
    zone, [zone_offset] seconds ahead of UTC, to these very digits.  The
    instant so named is [now] only when the two offsets agree. *)
Definition localize_now (host_offset zone_offset : Z) (now : Z) : Z :=
  now + host_offset - zone_offset.

(** [_add_interrupt(interrupt_time)] called at the instant [now] on a host
    [host_offset] seconds ahead of UTC, the controller's zone being
    [zone_offset] seconds ahead of UTC. *)
Definition _add_interrupt (host_offset zone_offset : Z) (now : Z)
    (interrupt_time : Z) (c : controller)
  : result unit * controller :=
  if interrupt_time <? 0 then (ValueError, c)
  else (Value tt,
        set_interrupt_queue c
          (Deque.append (localize_now host_offset zone_offset now, interrupt_time)
             (interrupt_queue c))).

(** [check_break_interrupt()] called when the clock reads [now]: the
    number of seconds to pause and the controller afterwards.  The entry
    that [self.__interrupt_queue[-1]] reads is the one that [pop()] then
    removes and returns. *)
Definition check_break_interrupt (now : Z) (c : controller) : Z * controller :=
  let check_interrupt :=
    match Deque.peek (interrupt_queue c) with
    | Some i =>
        if fst i <=? now
        then (snd i, set_interrupt_queue c (Deque.pop_rest (interrupt_queue c)))
        else (0, c)
    | None => (0, c)
    end in
  match break_queue c with
  | b :: rest =>
      if fst b <=? now then (snd b, set_break_queue c rest)
      else check_interrupt
  | [] => check_interrupt
  end.

(** [get_break_schedule()] and [get_interrupt_schedule()] hand out the
    queue objects themselves; the controller is not touched. *)
Definition get_break_schedule (c : controller) : list entry * controller :=
  (break_queue c, c).

Definition get_interrupt_schedule (c : controller) : list entry * controller :=
  (interrupt_queue c, c).

(** [check_end_time()] *)
Definition check_end_time (now : Z) (c : controller) : option bool :=
  match end_crawling_time c with
  | Some e => Some (e <=? now)
  | None => None
  end.

(** [get_ETA()]: the seconds left until the end of the day, [None] when
    the end of the day was never set ([TypeError]). *)
Definition get_ETA (now : Z) (c : controller) : option Z :=
  match end_crawling_time c with
  | Some e => Some (e - now)
  | None => None
  end.

(** The break at the front of the queue is due. *)
Definition break_due (now : Z) (c : controller) : bool :=
  match break_queue c with
  | b :: _ => fst b <=? now
  | [] => false
  end.

(** The interruption at the examined (right) end of the deque is due. *)
Definition interrupt_due (now : Z) (c : controller) : bool :=
  match Deque.peek (interrupt_queue c) with
  | Some i => fst i <=? now
  | None => false
  end.

(** *** The workday configuration ([config/workday.py])

    Times are instants, the deviations and interruption parameters are
    minutes.  [breaks] is [None] or the list of (start, end) pairs. *)
Record Workday : Type := mkWorkday {
  start_time : Z;
  end_time : Z;
  start_work_dev : Z;
  end_work_dev : Z;
  start_break_dev : Z;
  end_break_dev : Z;
  breaks : option (list (Z * Z));
  min_interrupt_length : Z;
  max_interrupt_length : Z;
  time_btw_interrupts : Z;
  time_btw_interrupts_dev : Z
}.

(** *** Random draws

    A computation that draws random numbers reads the oracle, the endless
    sequence of raw draws, from the position it is given and hands back the
    next position.  It can raise ([random.randint] on an empty range raises
    [ValueError]) or run out of the fuel that bounds its loops. *)
Inductive run (A : Type) : Type :=
| Ok (a : A) (next : nat)
| Raise
| OutOfFuel.
Arguments Raise {A}.
Arguments OutOfFuel {A}.

Definition M (A : Type) : Type := (nat -> Z) -> nat -> run A.

Definition ret {A : Type} (a : A) : M A := fun _ n => Ok a n.

Definition bind {A B : Type} (m : M A) (k : A -> M B) : M B :=
  fun oracle n =>
    match m oracle n with
    | Ok a n' => k a oracle n'
    | Raise => Raise
    | OutOfFuel => OutOfFuel
    end.

Notation "x <- m ;; k" := (bind m (fun x => k))
  (at level 61, m at next level, right associativity).

(** [random.randint(lo, hi)]: a number of [lo..hi], both ends included.
    The raw draw is folded into the range, so every member of the range is
    the outcome of some draw and every draw gives a member. *)
Definition randint (lo hi : Z) : M Z :=
  fun oracle n =>
    if hi <? lo then Raise
    else Ok (lo + oracle n mod (hi - lo + 1)) (S n).

(** *** The cron table ([CronTab], an external collaborator)

    A job is its comment and the instant [setall] gave it. *)
Record job : Type := mkJob {
  comment : string;
  trigger : Z
}.

Definition remove_all (cmt : string) (tab : list job) : list job :=
  filter (fun j => negb (String.eqb (comment j) cmt)) tab.

(** [__schedule_next_execution()].  [next_start] is what
    [configurations.get_start_date_next_day()] returned.  The runner script
    it writes is not part of the model. *)
Definition schedule_next_execution (next_start : Z) (tab : list job) : list job :=
  remove_all "crawler_execution"%string tab
    ++ [mkJob "crawler_execution"%string next_start].

(** *** [__generate_schedule] *)

(** Lines 214-227, the loop over the configured breaks. *)
Fixpoint put_breaks (w : Workday) (brs : list (Z * Z)) (bq : list entry)
  : M (list entry) :=
  match brs with
  | [] => ret bq
  | br :: brs' =>
      dev_break_start <- randint (start_break_dev w * -60) (start_break_dev w * 60) ;;
      dev_break_end <- randint (end_break_dev w * -60) (end_break_dev w * 60) ;;
      let br_start := fst br + dev_break_start in
      let br_end := snd br + dev_break_end in
      let br_dur := br_end - br_start in
      put_breaks w brs' (bq ++ [(br_start, br_dur)])
  end.

(** Lines 247-268, the [while] loop that fills the gap before the
    boundary [br].  [fuel] bounds the number of iterations. *)
Fixpoint fill_gap (fuel : nat) (w : Workday) (br : entry)
  (calculate_time : Z) (iq : list entry) : M (Z * list entry) :=
  if calculate_time <? fst br then
    match fuel with
    | O => fun _ _ => OutOfFuel
    | S fuel' =>
        interrupt_after <-
          randint ((time_btw_interrupts w - time_btw_interrupts_dev w) * 60)
                  ((time_btw_interrupts w + time_btw_interrupts_dev w) * 60) ;;
        let interrupt_start := calculate_time + interrupt_after in
        interrupt_dur <-
          randint (min_interrupt_length w * 60) (max_interrupt_length w * 60) ;;
        if interrupt_start + interrupt_dur <? fst br - 600 then
          fill_gap fuel' w br (interrupt_start + interrupt_dur)
                   (Deque.appendleft (interrupt_start, interrupt_dur) iq)
        else
          fill_gap fuel' w br (fst br + snd br) iq
    end
  else ret (calculate_time, iq).

(** Lines 239-268, the loop over the boundaries. *)
Fixpoint plan_interrupts (fuel : nat) (w : Workday) (break_list : list entry)
  (calculate_time : Z) (iq : list entry) : M (Z * list entry) :=
  match break_list with
  | [] => ret (calculate_time, iq)
  | br :: rest =>
      if fst br <=? calculate_time then
        plan_interrupts fuel w rest (fst br + snd br) iq
      else
        r <- fill_gap fuel w br calculate_time iq ;;
        plan_interrupts fuel w rest (fst r) (snd r)
  end.

(** The interruptions [es] pushed one after the other the way line 264
    pushes an accepted interruption. *)
Definition push_scheduled (es : list entry) (iq : list entry) : list entry :=
  fold_left (fun q e => Deque.appendleft e q) es iq.

(** How [__generate_schedule] ends: it returns, or the process exits. *)
Inductive ending : Type :=
| Returns
| Exits (code : Z).

(** What [__generate_schedule] leaves behind. *)
Record scheduled : Type := mkScheduled {
  how : ending;
  ctl : controller;
  crontab : list job
}.

(** The boundary list of line 231-234. *)
Definition boundaries (bq : list entry) (end_time' : Z) : list entry :=
  bq ++ [(end_time', 1)].

(** [__generate_schedule(configurations)], run on the controller [c] when
    the clock reads [now] and the cron table is [tab]; [fuel] bounds the
    iterations of each [while] loop. *)
Definition generate_schedule (fuel : nat) (w : Workday) (now next_start : Z)
  (tab : list job) (c : controller) : M scheduled :=
  dev_end <- randint (end_work_dev w * -60) (end_work_dev w * 60) ;;
  let end_crawling := end_time w + dev_end in
  let current_time := now in
  dev_start <- randint (start_work_dev w * -60) (start_work_dev w * 60) ;;
  let start := start_time w + dev_start in
  let start_dur := start_time w - current_time + dev_start in
  let bq0 :=
    if 0 <? start_dur then break_queue c ++ [(current_time, start_dur)]
    else break_queue c in
  bq <- match breaks w with
        | Some brs => put_breaks w brs bq0
        | None => ret bq0
        end ;;
  let break_list := boundaries bq end_crawling in
  let calculate_time := current_time in
  r <- plan_interrupts fuel w break_list calculate_time (interrupt_queue c) ;;
  let c' := mkController bq (snd r) (Some end_crawling) (Some start) in
  let tab' := schedule_next_execution next_start tab in
  if end_crawling <? start then ret (mkScheduled (Exits 0) c' tab')
  else ret (mkScheduled Returns c' tab').

(** [CrawlerTimeController.__init__]: empty queues, and the schedule
    generated when a configuration is given. *)
Definition new_controller (fuel : nat) (configurations : option Workday)
  (now next_start : Z) (tab : list job) : M scheduled :=
  match configurations with
  | Some w => generate_schedule fuel w now next_start tab init
  | None => ret (mkScheduled Returns init tab)
  end.

(** The configured breaks, none when [breaks] is [None]. *)
Definition configured_breaks (w : Workday) : list (Z * Z) :=
  match breaks w with
  | Some brs => brs
  | None => []
  end.

(** The interruption [i] ends with ten minutes to spare before the
    boundary [b] starts. *)
Definition buffered (b i : entry) : Prop := fst i + snd i + 600 <= fst b.

(** The queue entry [e] is the configured break [b] with its start and its
    end moved by no more than the configured deviations. *)
Definition deviated (w : Workday) (b : Z * Z) (e : entry) : Prop :=
  - (60 * start_break_dev w) <= fst e - fst b <= 60 * start_break_dev w
  /\ - (60 * end_break_dev w) <= fst e + snd e - snd b <= 60 * end_break_dev w.

(** The length of the interruption [i] lies between the two configured. *)
Definition of_configured_length (w : Workday) (i : entry) : Prop :=
  min_interrupt_length w * 60 <= snd i <= max_interrupt_length w * 60.

(** Every range handed to [random.randint] has a member. *)
Definition valid_ranges (w : Workday) : Prop :=
  0 <= start_work_dev w /\ 0 <= end_work_dev w
  /\ 0 <= start_break_dev w /\ 0 <= end_break_dev w
  /\ 0 <= time_btw_interrupts_dev w
  /\ min_interrupt_length w <= max_interrupt_length w.

(** A candidate interruption never starts before the cursor nor lasts a
    negative time, and gap and length together take at least a second. *)
Definition progressing (w : Workday) : Prop :=
  0 <= time_btw_interrupts w - time_btw_interrupts_dev w
  /\ 0 <= min_interrupt_length w
  /\ 1 <= (time_btw_interrupts w - time_btw_interrupts_dev w) * 60
          + min_interrupt_length w * 60.

(** No configured break is so short that the deviations of its two ends
    can turn it round. *)
Definition breaks_outlast_deviations (w : Workday) : Prop :=
  Forall (fun b => 60 * (start_break_dev w + end_break_dev w) <= snd b - fst b)
         (configured_breaks w).

End TimeController.

(** ** The status report of [crawler_main.py] and the polling of the schedule *)

Module CrawlerMain.

Import TimeController.

(** A line that [generate_cli_status] logs under the tag "schedule". *)
Inductive log_line : Type :=
| BreakSchedule (start_time end_time : Z)
| InterruptSchedule (start_time end_time : Z)
| ETA (seconds : Z)
| Variance (minutes : Z).

(** [generate_cli_status()], lines 245-267.  [get_interrupt_schedule]
    returns the controller's own deque, which [reverse()] then reverses in
    place; the break queue is only read.  The log is [None] when [get_ETA]
    raises because the schedule was never generated. *)
Definition generate_cli_status (w : Workday) (now : Z) (c : controller)
  : option (list log_line) * controller :=
  let (break_queue, c1) := get_break_schedule c in
  let (interrupt_queue, c2) := get_interrupt_schedule c1 in
  let interrupt_queue := Deque.reverse interrupt_queue in
  let c3 := set_interrupt_queue c2 interrupt_queue in
  let break_lines :=
    map (fun times => BreakSchedule (fst times) (fst times + snd times)) break_queue in
  let interrupt_lines :=
    map (fun times => InterruptSchedule (fst times) (fst times + snd times))
        interrupt_queue in
  match end_crawling_time c3 with
  | Some e =>
      (Some (break_lines ++ interrupt_lines
             ++ [ETA (e - now); Variance (time_btw_interrupts_dev w)]), c3)
  | None => (None, c3)
  end.

(** The coordinator polls [check_break_interrupt] once per iteration:
    the durations returned by the polls made at the clock readings [ts],
    and the controller after the last of them. *)
Fixpoint polls (ts : list Z) (c : controller) : list Z * controller :=
  match ts with
  | [] => ([], c)
  | now :: ts' =>
      let (d, c') := check_break_interrupt now c in
      let (ds, c'') := polls ts' c' in
      (d :: ds, c'')
  end.

(** Lines 143-149 of [start_crawling]: the status report, and then the
    poll that tells how long to wait for the workday to start. *)
Definition start_crawling_poll (w : Workday) (now later : Z) (c : controller)
  : Z * controller :=
  check_break_interrupt later (snd (generate_cli_status w now c)).

End CrawlerMain.

(** ** The configuration of the workday ([config/configuration.py])

    Here an instant counts the seconds from the midnight that began
    Thursday, 1 January 1970, on the clock of the workday's zone, and every
    day has 86400 of them (the zone keeps its offset).  The text "HH:MM" of
    the schedule is read by [clock], the seconds that
    [timedelta(hours=int(h), minutes=int(m))] makes of its two halves; a
    text that cannot be read so is not in the model.  A [datetime] ends
    with the year 9999 ([max_datetime]); the model follows this where the
    code moves a date on by a day in every turn of a loop, for there it
    decides how the loop ends. *)

Module Configuration.

Import TimeController.

(** One day of the week schedule: [schedule[day]["workday"]], empty or the
    start and the end of the day, and [schedule[day]["breaks"]], the starts
    and ends of the breaks in turn. *)
Record day : Type := mkDay {
  workday : list string;
  day_breaks : list string
}.

(** The dict [self.schedule], from the name of a day to that day. *)
Definition week : Type := list (string * day).

Fixpoint lookup (key : string) (schedule : week) : option day :=
  match schedule with
  | [] => None
  | (k, d) :: rest => if String.eqb k key then Some d else lookup key rest
  end.

(** How a call ends: with a value, with the exception it raised, or still
    in its loop when the fuel given to the loop is used up. *)
Inductive outcome (A : Type) : Type :=
| Done (a : A)
| KeyError
| IndexError
| OverflowError
| Unfinished.
Arguments KeyError {A}.
Arguments IndexError {A}.
Arguments OverflowError {A}.
Arguments Unfinished {A}.

(** [timedelta(days=1)] *)
Definition one_day : Z := 86400.

(** [datetime.max], the last second of the year 9999. *)
Definition max_datetime : Z := 253402300799.

(** [workday_date + timedelta(days=1)], an [OverflowError] ([None]) when
    the sum lies after [datetime.max]. *)
Definition add_day (workday_date : Z) : option Z :=
  if workday_date + one_day <=? max_datetime
  then Some (workday_date + one_day) else None.

(** [timezone.localize(datetime(now.year, now.month, now.day))] *)
Definition midnight (now : Z) : Z := now - now mod one_day.

(** [now.weekday()], Monday being 0. *)
Definition weekday (now : Z) : Z := (now / one_day + 3) mod 7.

(** [get_week_day(weekdaynr)]; [None] is what the function returns when
    none of its tests holds. *)
Definition get_week_day (weekdaynr : Z) : option string :=
  let weekdaynr := weekdaynr mod 7 in
  if weekdaynr =? 0 then Some "monday"%string
  else if weekdaynr =? 1 then Some "tuesday"%string
  else if weekdaynr =? 2 then Some "wednesday"%string
  else if weekdaynr =? 3 then Some "thursday"%string
  else if weekdaynr =? 4 then Some "friday"%string
  else if weekdaynr =? 5 then Some "saturday"%string
  else if weekdaynr =? 6 then Some "sunday"%string
  else None.

(** [self.schedule[weekday]], a [KeyError] when the name is no key. *)
Definition schedule_of (schedule : week) (weekdaynr : Z) : option day :=
  match get_week_day weekdaynr with
  | Some name => lookup name schedule
  | None => None
  end.

(** Lines 82-86 of [__prepare_breaks_and_start_end_time]: the loop that
    looks for the next day with a workday.  Every turn moves [weekdaynr]
    on by one and [workday_date] on by a day (line 86), which raises
    [OverflowError] once the date leaves the range of [datetime]; the test
    of the loop then looks the new day up.  [workday_date] is a local name
    whose last value the function does not return.  [fuel] bounds the
    number of turns. *)
Fixpoint next_workday (fuel : nat) (schedule : week)
  (weekdaynr workday_date : Z) : outcome day :=
  match schedule_of schedule weekdaynr with
  | None => KeyError
  | Some d =>
      match workday d with
      | [] =>
          match fuel with
          | O => Unfinished
          | S fuel' =>
              match add_day workday_date with
              | Some workday_date' =>
                  next_workday fuel' schedule (weekdaynr + 1) workday_date'
              | None => OverflowError
              end
          end
      | _ :: _ => Done d
      end
  end.

(** [__prepare_breaks_and_start_end_time(now, workday_date)]: the breaks,
    the start and the end of the day found.  Both callers pass the
    midnight of [now] as [workday_date]. *)
Definition prepare_breaks_and_start_end_time (fuel : nat) (schedule : week)
  (now : Z) : outcome (list string * string * string) :=
  let workday_date := midnight now in
  match next_workday fuel schedule (weekday now) workday_date with
  | Done d =>
      match workday d with
      | start_time :: end_time :: _ => Done (day_breaks d, start_time, end_time)
      | _ => IndexError
      end
  | KeyError => KeyError
  | IndexError => IndexError
  | OverflowError => OverflowError
  | Unfinished => Unfinished
  end.

(** Lines 134-138 of [setup_workday]: the breaks from index [i] on, after
    [i] has gone up by two for every break that has started. *)
Fixpoint skip_started (clock : string -> Z) (now workday_date : Z)
  (breaks : list string) : list string :=
  match breaks with
  | [] => []
  | break_start_time :: rest =>
      if now <? workday_date + clock break_start_time then breaks
      else match rest with
           | [] => []
           | _ :: rest' => skip_started clock now workday_date rest'
           end
  end.

(** Lines 149-156 of [setup_workday]: the break list made of the breaks
    from index [i] on, [breaks[i + 1]] raising when there is no such
    index. *)
Fixpoint pair_breaks (clock : string -> Z) (workday_date : Z)
  (breaks : list string) : outcome (list (Z * Z)) :=
  match breaks with
  | [] => Done []
  | [_] => IndexError
  | break_start_time :: break_end_time :: rest =>
      match pair_breaks clock workday_date rest with
      | Done breaklist =>
          Done ((workday_date + clock break_start_time,
                 workday_date + clock break_end_time) :: breaklist)
      | KeyError => KeyError
      | IndexError => IndexError
      | OverflowError => OverflowError
  | Unfinished => Unfinished
      end
  end.

(** [setup_workday()] run when the clock reads [now]: the workday [w] with
    its start, its end and its breaks set. *)
Definition setup_workday (fuel : nat) (clock : string -> Z) (schedule : week)
  (now : Z) (w : Workday) : outcome Workday :=
  let workday_date := midnight now in
  match prepare_breaks_and_start_end_time fuel schedule now with
  | Done (breaks, start_time, end_time) =>
      let started := workday_date + clock start_time <? now in
      let start_time' := if started then now else workday_date + clock start_time in
      let rest := if started then skip_started clock now workday_date breaks
                  else breaks in
      let end_time' := workday_date + clock end_time in
      match pair_breaks clock workday_date rest with
      | Done breaklist =>
          Done (mkWorkday start_time' end_time'
                  (start_work_dev w) (end_work_dev w)
                  (start_break_dev w) (end_break_dev w)
                  (Some breaklist)
                  (min_interrupt_length w) (max_interrupt_length w)
                  (time_btw_interrupts w) (time_btw_interrupts_dev w))
      | KeyError => KeyError
      | IndexError => IndexError
      | OverflowError => OverflowError
  | Unfinished => Unfinished
      end
  | KeyError => KeyError
  | IndexError => IndexError
  | OverflowError => OverflowError
  | Unfinished => Unfinished
  end.

(** [get_start_date_next_day()] run when the clock reads [now]. *)
Definition get_start_date_next_day (fuel : nat) (clock : string -> Z)
  (schedule : week) (now : Z) : outcome Z :=
  let now := now + one_day in
  let workday_date := midnight now in
  match prepare_breaks_and_start_end_time fuel schedule now with
  | Done (_, start_time, _) => Done (workday_date + clock start_time)
  | KeyError => KeyError
  | IndexError => IndexError
  | OverflowError => OverflowError
  | Unfinished => Unfinished
  end.

(** A week of five days from 9:00 to 17:00 with a break from 12:00 to
    13:00 and one from 15:00 to 15:15, for the examples. *)
Definition office_day : day :=
  mkDay ["09:00"; "17:00"]%string ["12:00"; "13:00"; "15:00"; "15:15"]%string.

Definition office_week : week :=
  [("monday", office_day); ("tuesday", office_day); ("wednesday", office_day);
   ("thursday", office_day); ("friday", office_day);
   ("saturday", mkDay [] []); ("sunday", mkDay [] [])]%string.

(** A week in which no day has a workday. *)
Definition idle_week : week :=
  [("monday", mkDay [] []); ("tuesday", mkDay [] []);
   ("wednesday", mkDay [] []); ("thursday", mkDay [] []);
   ("friday", mkDay [] []); ("saturday", mkDay [] []);
   ("sunday", mkDay [] [])]%string.

(** The reading of the texts of [office_week]. *)
Definition office_clock (text : string) : Z :=
  if String.eqb text "09:00" then 32400
  else if String.eqb text "12:00" then 43200
  else if String.eqb text "13:00" then 46800
  else if String.eqb text "15:00" then 54000
  else if String.eqb text "15:15" then 54900
  else if String.eqb text "17:00" then 61200
  else 0.

(** The day [weekdaynr] has a workday in the schedule. *)
Definition working (schedule : week) (weekdaynr : Z) : Prop :=
  exists d, schedule_of schedule weekdaynr = Some d /\ workday d <> [].

(** Every day of the week is a key of the schedule. *)
Definition complete (schedule : week) : Prop :=
  forall weekdaynr, schedule_of schedule weekdaynr <> None.

End Configuration.

(** ** The control signals and the crawl loop *)

Module Control.

(** [enums/captcha_type.py] *)
Inductive CaptchaType : Type :=
| SIMPLE_MATH_PROBLEM
| WORD_PROBLEM
| TIME_BASED
| HONEYPOT
| PICTURE_IDENTIFICATION
| RECAPTCHA
| NOCAPTCHA_RECAPTCHA
| INVISIBLE_RECAPTCHA
| SWEET_CAPTCHA
| BIOMETRICS
| HCAPTCHA
| CUSTOM_SECOND_FACTOR
| DREAD
| DDOS_GUARD.

Definition is_honeypot (t : CaptchaType) : bool :=
  match t with
  | HONEYPOT => true
  | _ => false
  end.

(** The two threads of [main.py]. *)
Inductive thread : Type :=
| Crawler
| Cli.

Definition thread_eqb (a b : thread) : bool :=
  match a, b with
  | Crawler, Crawler => true
  | Cli, Cli => true
  | _, _ => false
  end.

(** A [threading.Condition] is the list of the threads blocked in its
    [wait], the longest-waiting first. *)
Definition Condition : Type := list thread.

(** [cond.wait()] entered by thread [t]. *)
Definition wait (t : thread) (cond : Condition) : Condition := cond ++ [t].

(** [cond.notify()] wakes at most one waiting thread. *)
Definition notify (cond : Condition) : Condition := tl cond.

(** [t] is still blocked on [cond]. *)
Definition waiting (t : thread) (cond : Condition) : bool :=
  existsb (thread_eqb t) cond.

(** The timeout of [t]'s wait elapses: it leaves the waiters. *)
Definition give_up_wait (t : thread) (cond : Condition) : Condition :=
  filter (fun u => negb (thread_eqb t u)) cond.

(** The four primitives created in [main.py]; a [threading.Event] is its
    flag. *)
Record signals : Type := mkSignals {
  pause_event : bool;
  terminate_event : bool;
  resume_condition : Condition;
  solved_condition : Condition
}.

(** *** [cli/crawl_command.py] and [cli/captcha_command.py] *)

(** [CrawlCommand.pause]: [self.pause.set()] *)
Definition pause (s : signals) : signals :=
  mkSignals true (terminate_event s) (resume_condition s) (solved_condition s).

(** [CrawlCommand.terminate]: [self.terminate.set()] *)
Definition terminate (s : signals) : signals :=
  mkSignals (pause_event s) true (resume_condition s) (solved_condition s).

(** [CrawlCommand.resume]: acquire, [notify()], release.  The line that
    cleared the pause event is commented out in the source. *)
Definition resume (s : signals) : signals :=
  mkSignals (pause_event s) (terminate_event s) (notify (resume_condition s))
            (solved_condition s).

(** [CaptchaCommand.solved]: acquire, [notify()], release. *)
Definition solved (s : signals) : signals :=
  mkSignals (pause_event s) (terminate_event s) (resume_condition s)
            (notify (solved_condition s)).

(** [CrawlCommand.execute]: [self.command_list[command_name]()], [None]
    standing for the [KeyError] of an unknown name. *)
Definition crawl_command_execute (command_name : string) (s : signals)
  : option signals :=
  if String.eqb command_name "pause" then Some (pause s)
  else if String.eqb command_name "terminate" then Some (terminate s)
  else if String.eqb command_name "resume" then Some (resume s)
  else None.

(** [CaptchaCommand.execute] *)
Definition captcha_command_execute (command_name : string) (s : signals)
  : option signals :=
  if String.eqb command_name "solved" then Some (solved s)
  else None.

(** [CLI.command_list] of [cli/cli.py] *)
Definition command_list (word : string)
  : option (string -> signals -> option signals) :=
  if String.eqb word "pause" then Some crawl_command_execute
  else if String.eqb word "terminate" then Some crawl_command_execute
  else if String.eqb word "resume" then Some crawl_command_execute
  else if String.eqb word "solved" then Some captcha_command_execute
  else None.

(** One turn of the loop of [CLI.execute_command] on the first word of the
    line read: the flag [on] afterwards and the signals afterwards.  A word
    that is no command is logged as "Command not found". *)
Definition execute_command (word : string) (s : signals) : bool * signals :=
  let on := negb (String.eqb word "terminate") in
  match command_list word with
  | Some handler =>
      match handler word s with
      | Some s' => (on, s')
      | None => (on, s)
      end
  | None => (on, s)
  end.

(** *** [crawler/captcha_solver.py] and the loop of [CrawlerMain.__crawling] *)

(** Where the crawler thread stands. *)
Inductive loc : Type :=
| NextPage        (* line 316, inside [next_page] of the page processor *)
| CaptchaWait     (* captcha_solver.py line 36, [solved_condition.wait()] *)
| ReadWait        (* line 329, [resume_condition.wait(timeout=fetch_delay)] *)
| Interact        (* lines 331-335 *)
| BreakWait       (* line 343, [resume_condition.wait(timeout=duration)] *)
| PauseTest       (* line 347, the test of the [while] *)
| PauseSleep      (* lines 351-352, [time.sleep(2)] and the test after it *)
| TerminateTest   (* line 355 *)
| EndTest         (* lines 359-361 *)
| Exited.         (* [__shutdown] or [_terminate_crawling] was called, the
                     page processor called [exit], or an exception left the
                     loop: none of them returns to the loop *)

(** The signals, the crawler thread and the flag [on] of the CLI loop. *)
Record system : Type := mkSystem {
  sig : signals;
  at_loc : loc;
  cli_on : bool
}.

Definition set_sig (x : system) (s : signals) : system :=
  mkSystem s (at_loc x) (cli_on x).

Definition goto (x : system) (l : loc) : system :=
  mkSystem (sig x) l (cli_on x).

(** [CaptchaSolver.solve_captcha(captcha_type)] entered by the crawler:
    any type but the honeypot makes it wait on the solved condition, and
    [wait()] is given no timeout. *)
Definition solve_captcha (captcha_type : CaptchaType) (x : system) : system :=
  if negb (is_honeypot captcha_type) then
    mkSystem (mkSignals (pause_event (sig x)) (terminate_event (sig x))
                        (resume_condition (sig x))
                        (wait Crawler (solved_condition (sig x))))
             CaptchaWait (cli_on x)
  else x.

(** The crawler enters [resume_condition.wait(timeout=...)] at [l]. *)
Definition wait_resume (l : loc) (x : system) : system :=
  mkSystem (mkSignals (pause_event (sig x)) (terminate_event (sig x))
                      (wait Crawler (resume_condition (sig x)))
                      (solved_condition (sig x)))
           l (cli_on x).

(** The timeout of the crawler's wait on the resume condition elapses. *)
Definition timeout_resume (l : loc) (x : system) : system :=
  mkSystem (mkSignals (pause_event (sig x)) (terminate_event (sig x))
                      (give_up_wait Crawler (resume_condition (sig x)))
                      (solved_condition (sig x)))
           l (cli_on x).

(** What can happen next. *)
Inductive event : Type :=
| Command (word : string)      (* the CLI thread reads a line *)
| Captcha (t : CaptchaType)    (* the interpreter finds a CAPTCHA on the page *)
| PageParsed                   (* [next_page] returns; lines 319-328 *)
| Woken                        (* a [wait] that was notified returns *)
| TimedOut                     (* the timeout of a [wait] elapses *)
| Checked (duration : Z)       (* lines 331-334, what [check_break_interrupt] gave *)
| Crawl                        (* the crawler runs its next test *)
| EndChecked (stop : bool)     (* lines 359-360, both tests hold or not *)
| PageExit (status : Z)        (* [interact_with_page], called on line 331,
                                  calls [exit(status)]:
                                  [crawler_page_processing.py], line 297
                                  (status 1), lines 310 and 393 (status 0) *)
| Raised.                      (* an exception leaves [next_page],
                                  [interact_with_page] or another call of
                                  lines 316-334; [__crawling] catches none *)

(** One step of the system; [None] when the event cannot happen now. *)
Definition step (e : event) (x : system) : option system :=
  match e, at_loc x with
  | Command word, _ =>
      if cli_on x then
        let (on, s) := execute_command word (sig x) in
        Some (mkSystem s (at_loc x) on)
      else None
  | Captcha t, NextPage => Some (solve_captcha t x)
  | PageParsed, NextPage => Some (wait_resume ReadWait x)
  | Woken, CaptchaWait =>
      if waiting Crawler (solved_condition (sig x)) then None
      else Some (goto x NextPage)
  | Woken, ReadWait =>
      if waiting Crawler (resume_condition (sig x)) then None
      else Some (goto x Interact)
  | Woken, BreakWait =>
      if waiting Crawler (resume_condition (sig x)) then None
      else Some (goto x PauseTest)
  | TimedOut, ReadWait => Some (timeout_resume Interact x)
  | TimedOut, BreakWait => Some (timeout_resume PauseTest x)
  | Checked duration, Interact =>
      if 0 <? duration then Some (wait_resume BreakWait x)
      else Some (goto x PauseTest)
  | Crawl, PauseTest =>
      if pause_event (sig x) then Some (goto x PauseSleep)
      else Some (goto x TerminateTest)
  | Crawl, PauseSleep =>
      if terminate_event (sig x) then Some (goto x Exited)
      else Some (goto x PauseTest)
  | Crawl, TerminateTest =>
      if terminate_event (sig x) then Some (goto x Exited)
      else Some (goto x EndTest)
  | EndChecked stop, EndTest =>
      if stop then Some (goto x Exited) else Some (goto x NextPage)
  | PageExit _, Interact => Some (goto x Exited)
  | Raised, NextPage => Some (goto x Exited)
  | Raised, Interact => Some (goto x Exited)
  | _, _ => None
  end.

(** A run of the system along a list of events. *)
Fixpoint steps (es : list event) (x : system) : option system :=
  match es with
  | [] => Some x
  | e :: es' =>
      match step e x with
      | Some x' => steps es' x'
      | None => None
      end
  end.

(** The crawler is in the two-second pause poll of lines 347-353. *)
Definition in_pause_poll (l : loc) : bool :=
  match l with
  | PauseTest | PauseSleep => true
  | _ => false
  end.

(** The crawler runs the loop body outside the pause poll. *)
Definition running (l : loc) : bool :=
  match l with
  | NextPage | CaptchaWait | ReadWait | Interact | BreakWait | EndTest => true
  | _ => false
  end.

(** The crawler is blocked in [solved_condition.wait()]. *)
Definition blocked_on_captcha (x : system) : Prop :=
  at_loc x = CaptchaWait /\ waiting Crawler (solved_condition (sig x)) = true.

(** The pause event is set and the crawler polls it, or has shut down on
    a set terminate event. *)
Definition paused_for_good (x : system) : Prop :=
  pause_event (sig x) = true
  /\ (in_pause_poll (at_loc x) = true
      \/ at_loc x = Exited /\ terminate_event (sig x) = true).

End Control.

(** * Properties *)

Import TimeController CrawlerMain.

(** ** Facts about the deque *)

Section DequeFacts.
Context {A : Type}.
Implicit Types (q : list A) (x : A).

Lemma peek_app_last q x : Deque.peek (q ++ [x]) = Some x.
Proof.
  induction q as [|y q IH]; [reflexivity|].
  simpl. destruct (q ++ [x]) eqn:E; [|exact IH].
  destruct q; discriminate.
Qed.

Lemma pop_rest_app_last q x : Deque.pop_rest (q ++ [x]) = q.
Proof.
  induction q as [|y q IH]; [reflexivity|].
  simpl. destruct (q ++ [x]) eqn:E.
  - destruct q; discriminate.
  - rewrite IH. reflexivity.
Qed.

Lemma pop_append q x : Deque.pop (Deque.append x q) = Some (x, q).
Proof.
  unfold Deque.pop, Deque.append.
  rewrite peek_app_last, pop_rest_app_last. reflexivity.
Qed.

Lemma peek_none q : Deque.peek q = None -> q = [].
Proof.
  induction q as [|y q IH]; [reflexivity|].
  simpl. destruct q; [discriminate|]. intros H. specialize (IH H). discriminate.
Qed.

Lemma peek_some q x : Deque.peek q = Some x -> q = Deque.pop_rest q ++ [x].
Proof.
  induction q as [|y q IH]; [discriminate|].
  simpl. destruct q as [|z q'].
  - intros [= ->]. reflexivity.
  - intros H. rewrite (IH H) at 1. reflexivity.
Qed.



End DequeFacts.

(** ** [check_break_interrupt] *)

Section CheckBreakInterrupt.
Variables (now : Z) (c : controller).

Lemma check_break_due b rest :
  break_queue c = b :: rest -> fst b <= now ->
  check_break_interrupt now c = (snd b, set_break_queue c rest).
Proof.
  intros Hq Hb. unfold check_break_interrupt. rewrite Hq.
  apply Z.leb_le in Hb. rewrite Hb. reflexivity.
Qed.

Lemma check_no_break_due :
  break_due now c = false ->
  check_break_interrupt now c =
  match Deque.peek (interrupt_queue c) with
  | Some i =>
      if fst i <=? now
      then (snd i, set_interrupt_queue c (Deque.pop_rest (interrupt_queue c)))
      else (0, c)
  | None => (0, c)
  end.
Proof.
  unfold break_due, check_break_interrupt.
  destruct (break_queue c) as [|b rest]; [reflexivity|].
  intros ->. reflexivity.
Qed.


Lemma interrupt_due_shape older i :
  interrupt_queue c = older ++ [i] ->
  interrupt_due now c = (fst i <=? now).
Proof.
  intros Hq. unfold interrupt_due. rewrite Hq, peek_app_last. reflexivity.
Qed.

Lemma check_interrupt_due older i :
  break_due now c = false ->
  interrupt_queue c = older ++ [i] -> fst i <= now ->
  check_break_interrupt now c = (snd i, set_interrupt_queue c older).
Proof.
  intros Hb Hq Hi. rewrite (check_no_break_due Hb), Hq.
  rewrite peek_app_last, pop_rest_app_last.
  apply Z.leb_le in Hi. rewrite Hi. reflexivity.
Qed.

Lemma check_nothing_due :
  break_due now c = false ->
  (interrupt_queue c = [] \/
   exists older i, interrupt_queue c = older ++ [i] /\ now < fst i) ->
  check_break_interrupt now c = (0, c).
Proof.
  intros Hb Hq. rewrite (check_no_break_due Hb).
  destruct Hq as [-> | (older & i & -> & Hi)]; [reflexivity|].
  rewrite peek_app_last. apply Z.leb_gt in Hi. rewrite Hi. reflexivity.
Qed.


End CheckBreakInterrupt.


(** ** [_add_interrupt] *)

Lemma localize_now_same_zone (offset now : Z) :
  localize_now offset offset now = now.
Proof. unfold localize_now. lia. Qed.

Section AddInterrupt.
Variables (host_offset zone_offset now : Z) (c : controller).

Lemma add_interrupt_negative d :
  d < 0 -> _add_interrupt host_offset zone_offset now d c = (ValueError, c).
Proof.
  intros H. unfold _add_interrupt.
  apply Z.ltb_lt in H. rewrite H. reflexivity.
Qed.

Lemma add_interrupt_pushes d :
  0 <= d ->
  _add_interrupt host_offset zone_offset now d c =
  (Value tt,
   set_interrupt_queue c
     (interrupt_queue c ++ [(localize_now host_offset zone_offset now, d)])).
Proof.
  intros H. unfold _add_interrupt.
  apply Z.ltb_ge in H. rewrite H. reflexivity.
Qed.

(** A poll made with no break due and not before the stamp of the added
    entry pops that entry again and returns its duration. *)
Lemma add_interrupt_polled d later :
  0 <= d ->
  localize_now host_offset zone_offset now <= later ->
  break_due later c = false ->
  check_break_interrupt later
    (snd (_add_interrupt host_offset zone_offset now d c)) = (d, c).
Proof.
  intros Hd Hl Hb. rewrite (add_interrupt_pushes Hd). cbn [snd].
  rewrite (@check_interrupt_due later _ (interrupt_queue c)
             (localize_now host_offset zone_offset now, d)).
  - cbn [snd]. destruct c; reflexivity.
  - exact Hb.
  - reflexivity.
  - exact Hl.
Qed.

(** A poll made before the stamp of the added entry returns 0 and leaves
    the entry, and everything queued behind it, where it is. *)
Lemma add_interrupt_held_back d later :
  0 <= d ->
  later < localize_now host_offset zone_offset now ->
  break_due later c = false ->
  check_break_interrupt later
    (snd (_add_interrupt host_offset zone_offset now d c))
  = (0, snd (_add_interrupt host_offset zone_offset now d c)).
Proof.
  intros Hd Hl Hb. rewrite (add_interrupt_pushes Hd). cbn [snd].
  apply check_nothing_due; [exact Hb|].
  right. exists (interrupt_queue c), (localize_now host_offset zone_offset now, d).
  split; [reflexivity | exact Hl].
Qed.

End AddInterrupt.

(** C7 fails on the code.  [_add_interrupt] stamps the new entry with the
    wall clock of the host read as a wall clock of the controller's zone,
    and [check_break_interrupt] compares that stamp with the instant
    itself.  Take a host nine hours ahead of UTC (Asia/Tokyo) and a
    controller whose zone is one hour ahead (Europe/Amsterdam in winter):
    [_add_interrupt(300)] at the instant 500 pushes [(29300, 300)] at the
    examined end.  The poll at that same instant, with no break due,
    returns 0 and leaves the entry queued, and so does every poll of the
    next eight hours; only the poll at 29300 returns 300.  On a host in the
    controller's zone the poll at 500 returns 300.  A negative duration
    raises [ValueError] and leaves the controller as it was. *)
Lemma add_interrupt_stamp_is_host_wall_clock :
  let c := mkController [(90000, 60)] [(700, 120)] (Some 100000) (Some 0) in
  let c' := snd (_add_interrupt 32400 3600 500 300 c) in
  _add_interrupt 32400 3600 500 (-5) c = (ValueError, c)
  /\ interrupt_queue c' = [(700, 120); (29300, 300)]
  /\ break_due 500 c' = false
  /\ check_break_interrupt 500 c' = (0, c')
  /\ check_break_interrupt 29299 c' = (0, c')
  /\ check_break_interrupt 29300 c' = (300, c)
  /\ check_break_interrupt 500 (snd (_add_interrupt 3600 3600 500 300 c))
     = (300, c).
Proof.
  repeat split.
Qed.

(** ** The order in which the interruption deque is consumed *)

Lemma push_scheduled_rev (es iq : list entry) :
  push_scheduled es iq = rev es ++ iq.
Proof.
  unfold push_scheduled. revert iq.
  induction es as [|e es IH]; intros iq; [reflexivity|].
  simpl. rewrite IH. unfold Deque.appendleft.
  rewrite <- app_assoc. reflexivity.
Qed.





(** ** The status report *)

Lemma accessors_read_only (c : controller) :
  snd (get_break_schedule c) = c /\ snd (get_interrupt_schedule c) = c.
Proof. split; reflexivity. Qed.

Lemma generate_cli_status_queues (w : Workday) (now : Z) (c : controller) :
  break_queue (snd (generate_cli_status w now c)) = break_queue c
  /\ interrupt_queue (snd (generate_cli_status w now c)) = rev (interrupt_queue c).
Proof.
  unfold generate_cli_status. simpl.
  destruct (end_crawling_time c); split; reflexivity.
Qed.

(** C2 fails on the code.  The status report reverses the controller's own
    interruption deque: with the interruptions (200, 7) and (100, 5) queued
    (the one starting at 100 at the examined end) the report leaves them in
    the opposite order, and the poll at 150 that would have returned 5 now
    returns 0. *)
Lemma generate_cli_status_reverses_interrupts :
  let w := mkWorkday 0 1000 0 0 0 0 None 10 15 120 0 in
  let c := mkController [] [(200, 7); (100, 5)] (Some 1000) (Some 0) in
  interrupt_queue (snd (generate_cli_status w 50 c)) = [(100, 5); (200, 7)]
  /\ interrupt_queue (snd (generate_cli_status w 50 c)) <> interrupt_queue c
  /\ fst (check_break_interrupt 150 c) = 5
  /\ fst (check_break_interrupt 150 (snd (generate_cli_status w 50 c))) = 0.
Proof.
  repeat split; discriminate.
Qed.

(** ** Running a computation that draws random numbers *)

Section Monad.
Context {A B : Type}.

Lemma bind_ok (m : M A) (k : A -> M B) oracle n b n' :
  bind m k oracle n = Ok b n' ->
  exists a n1, m oracle n = Ok a n1 /\ k a oracle n1 = Ok b n'.
Proof.
  unfold bind. destruct (m oracle n) as [a n1| |]; try discriminate.
  intros H. exists a, n1. split; [reflexivity|exact H].
Qed.

Lemma bind_returns (m : M A) (k : A -> M B) oracle n a n1 :
  m oracle n = Ok a n1 -> bind m k oracle n = k a oracle n1.
Proof. unfold bind. intros ->. reflexivity. Qed.

End Monad.

Lemma randint_ok lo hi oracle n v n' :
  randint lo hi oracle n = Ok v n' -> lo <= v <= hi /\ n' = S n.
Proof.
  unfold randint. destruct (hi <? lo) eqn:E; [discriminate|].
  apply Z.ltb_ge in E. intros [= <- <-]. split; [|reflexivity].
  pose proof (Z.mod_pos_bound (oracle n) (hi - lo + 1)). lia.
Qed.

Lemma randint_returns lo hi oracle n :
  lo <= hi -> randint lo hi oracle n = Ok (lo + oracle n mod (hi - lo + 1)) (S n).
Proof.
  intros H. unfold randint. apply Z.ltb_ge in H. rewrite H. reflexivity.
Qed.

(** Every member of the range is the outcome of some draw. *)
Lemma randint_onto lo hi v n :
  lo <= v <= hi -> randint lo hi (fun _ => v - lo) n = Ok v (S n).
Proof.
  intros H. rewrite randint_returns by lia.
  rewrite Z.mod_small by lia. f_equal. lia.
Qed.

(** Splits a hypothesis [x <- m ;; k = Ok _ _] into its two runs. *)
Ltac bind_inv H :=
  let a := fresh "a" in
  let n1 := fresh "n" in
  let H1 := fresh "Hrun" in
  apply bind_ok in H; destruct H as (a & n1 & H1 & H).

(** ** The interruptions planned by [__generate_schedule] *)

Section FillGap.
Variables (w : Workday) (br : entry).

Lemma push_scheduled_cons e es iq :
  push_scheduled (e :: es) iq = push_scheduled es (Deque.appendleft e iq).
Proof. reflexivity. Qed.

(** What one run of the [while] loop pushes: every interruption it accepts
    ends more than 600 seconds before [br] starts, and the loop is left
    with the cursor at or past the start of [br]. *)
Lemma fill_gap_pushes fuel :
  forall calculate_time iq oracle n r n',
    fill_gap fuel w br calculate_time iq oracle n = Ok r n' ->
    fst br <= fst r /\
    exists new,
      snd r = push_scheduled new iq
      /\ Forall (fun i => fst i + snd i + 600 < fst br) new.
Proof.
  induction fuel as [|fuel IH]; intros calc iq oracle n r n' H.
  - simpl in H. destruct (calc <? fst br) eqn:E; [discriminate|].
    injection H as <- <-. apply Z.ltb_ge in E.
    split; [exact E|]. exists []. split; [reflexivity|constructor].
  - simpl in H. destruct (calc <? fst br) eqn:E.
    + bind_inv H. bind_inv H.
      destruct (calc + a + a0 <? fst br - 600) eqn:Acc.
      * apply IH in H. destruct H as (Hc & new & Hq & Hall).
        split; [exact Hc|].
        exists ((calc + a, a0) :: new). split; [exact Hq|].
        constructor; [|exact Hall]. simpl. apply Z.ltb_lt in Acc. lia.
      * apply IH in H. exact H.
    + injection H as <- <-. apply Z.ltb_ge in E.
      split; [exact E|]. exists []. split; [reflexivity|constructor].
Qed.

(** With gaps and lengths that are not negative and a boundary that does
    not end before it starts, the cursor only moves forward: nothing is
    pushed that starts before the cursor the loop was entered with. *)
Lemma fill_gap_forward fuel :
  0 <= time_btw_interrupts w - time_btw_interrupts_dev w ->
  0 <= min_interrupt_length w ->
  0 <= snd br ->
  forall calculate_time iq oracle n r n',
    fill_gap fuel w br calculate_time iq oracle n = Ok r n' ->
    exists new,
      snd r = push_scheduled new iq
      /\ Forall (fun i => calculate_time <= fst i /\ 0 <= snd i
                          /\ fst i + snd i + 600 < fst br) new.
Proof.
  intros Hgap Hlen Hbr.
  induction fuel as [|fuel IH]; intros calc iq oracle n r n' H.
  - simpl in H. destruct (calc <? fst br) eqn:E; [discriminate|].
    injection H as <- <-. exists []. split; [reflexivity|constructor].
  - simpl in H. destruct (calc <? fst br) eqn:E.
    + bind_inv H. bind_inv H.
      apply randint_ok in Hrun as [Ha _]. apply randint_ok in Hrun0 as [Hd _].
      apply Z.ltb_lt in E.
      destruct (calc + a + a0 <? fst br - 600) eqn:Acc.
      * apply IH in H. destruct H as (new & Hq & Hall).
        exists ((calc + a, a0) :: new). split; [exact Hq|].
        apply Z.ltb_lt in Acc.
        constructor; [simpl; lia|].
        eapply Forall_impl; [|exact Hall]. simpl. intros i Hi. lia.
      * apply IH in H. destruct H as (new & Hq & Hall).
        exists new. split; [exact Hq|].
        eapply Forall_impl; [|exact Hall]. simpl. intros i Hi. lia.
    + injection H as <- <-. exists []. split; [reflexivity|constructor].
Qed.

(** More fuel does not change what the loop returns. *)
Lemma fill_gap_more_fuel fuel :
  forall calculate_time iq oracle n r n',
    fill_gap fuel w br calculate_time iq oracle n = Ok r n' ->
    forall fuel', (fuel <= fuel')%nat ->
    fill_gap fuel' w br calculate_time iq oracle n = Ok r n'.
Proof.
  induction fuel as [|fuel IH]; intros calc iq oracle n r n' H fuel' Hle.
  - simpl in H. destruct (calc <? fst br) eqn:E; [discriminate|].
    destruct fuel'; simpl; rewrite E; exact H.
  - destruct fuel' as [|fuel']; [lia|].
    simpl in H |- *. destruct (calc <? fst br) eqn:E; [|exact H].
    bind_inv H. bind_inv H.
    unfold bind at 1. rewrite Hrun. unfold bind at 1. rewrite Hrun0.
    destruct (calc + a + a0 <? fst br - 600);
      (eapply IH; [exact H | lia]).
Qed.

(** The loop ends: as many iterations as there are seconds up to the
    boundary, and one more, are enough. *)
Lemma fill_gap_returns fuel :
  valid_ranges w -> progressing w -> 0 <= snd br ->
  forall calculate_time iq oracle n,
    (Z.to_nat (fst br - calculate_time) + 1 <= fuel)%nat ->
    exists r n', fill_gap fuel w br calculate_time iq oracle n = Ok r n'.
Proof.
  intros (_ & _ & _ & _ & Hdev & Hlen) (Hgap & Hmin & Hstep) Hbr.
  induction fuel as [|fuel IH]; intros calc iq oracle n Hf; [lia|].
  simpl. destruct (calc <? fst br) eqn:E; [|eexists _, _; reflexivity].
  apply Z.ltb_lt in E.
  unfold bind at 1. rewrite randint_returns by lia.
  unfold bind at 1. rewrite randint_returns by lia.
  set (a := _ + oracle n mod _). set (d := _ + oracle (S n) mod _).
  assert (Ha : (time_btw_interrupts w - time_btw_interrupts_dev w) * 60 <= a).
  { subst a. match goal with |- _ <= _ + ?x mod ?y =>
      pose proof (Z.mod_pos_bound x y ltac:(lia)) end. lia. }
  assert (Hd : min_interrupt_length w * 60 <= d).
  { subst d. match goal with |- _ <= _ + ?x mod ?y =>
      pose proof (Z.mod_pos_bound x y ltac:(lia)) end. lia. }
  destruct (calc + a + d <? fst br - 600).
  - apply IH. lia.
  - destruct fuel as [|fuel]; simpl;
      (replace (fst br + snd br <? fst br) with false
         by (symmetry; apply Z.ltb_ge; lia));
      eexists _, _; reflexivity.
Qed.

End FillGap.

Section PlanInterrupts.
Variable w : Workday.

Lemma push_scheduled_app es1 es2 iq :
  push_scheduled (es1 ++ es2) iq = push_scheduled es2 (push_scheduled es1 iq).
Proof. apply fold_left_app. Qed.

(** The loop over the boundaries pushes one group of interruptions per
    boundary, and those of a group end more than 600 seconds before the
    boundary of the group starts. *)
Lemma plan_interrupts_groups fuel :
  forall break_list calculate_time iq oracle n r n',
    plan_interrupts fuel w break_list calculate_time iq oracle n = Ok r n' ->
    exists groups,
      snd r = push_scheduled (List.concat groups) iq
      /\ Forall2 (fun g b => Forall (fun i => fst i + snd i + 600 < fst b) g)
                 groups break_list.
Proof.
  induction break_list as [|br rest IH]; intros calc iq oracle n r n' H.
  - injection H as <- <-. exists []. split; [reflexivity|constructor].
  - simpl in H. destruct (fst br <=? calc).
    + apply IH in H. destruct H as (groups & Hq & Hall).
      exists ([] :: groups). split; [exact Hq|].
      constructor; [constructor|exact Hall].
    + bind_inv H. apply fill_gap_pushes in Hrun.
      destruct Hrun as (_ & new & Hnew & Hbuf).
      apply IH in H. destruct H as (groups & Hq & Hall).
      exists (new :: groups). split.
      * simpl. rewrite push_scheduled_app, <- Hnew. exact Hq.
      * constructor; assumption.
Qed.

(** On boundaries in start order that do not end before they start, an
    interruption is only ever pushed after the boundaries already passed,
    and it keeps the buffer to every boundary that starts after it. *)
Lemma plan_interrupts_forward fuel :
  0 <= time_btw_interrupts w - time_btw_interrupts_dev w ->
  0 <= min_interrupt_length w ->
  forall break_list,
    StronglySorted (fun a b => fst a <= fst b) break_list ->
    Forall (fun b => 0 <= snd b) break_list ->
    forall floor calculate_time iq oracle n r n',
      floor <= calculate_time ->
      Forall (fun b => floor <= fst b) break_list ->
      plan_interrupts fuel w break_list calculate_time iq oracle n = Ok r n' ->
      exists new,
        snd r = push_scheduled new iq
        /\ Forall (fun i =>
                     floor <= fst i /\ 0 <= snd i /\
                     (exists b, In b break_list /\ fst i < fst b) /\
                     forall b, In b break_list -> fst i < fst b ->
                               fst i + snd i + 600 < fst b) new.
Proof.
  intros Hgap Hlen.
  induction break_list as [|br rest IH];
    intros Hsort Hdur floor calc iq oracle n r n' Hfloor Hlow H.
  - injection H as <- <-. exists []. split; [reflexivity|constructor].
  - inversion Hsort as [|? ? Hsort' Hbr]; subst.
    inversion Hdur as [|? ? Hd Hdur']; subst.
    inversion Hlow as [|? ? Hl Hlow']; subst.
    assert (Hrest : Forall (fun b => fst br <= fst b) rest) by exact Hbr.
    simpl in H. destruct (fst br <=? calc) eqn:E.
    + apply (IH Hsort' Hdur' (fst br)) in H; [|lia|exact Hrest].
      destruct H as (new & Hq & Hall). exists new. split; [exact Hq|].
      eapply Forall_impl; [|exact Hall]. simpl.
      intros i (Hi & Hs & (b & Hb & Hlt) & Hnext).
      split; [lia|]. split; [exact Hs|]. split; [exists b; auto|].
      intros b' [<- | Hin] Hlt'; [lia | auto].
    + bind_inv H. apply Z.leb_gt in E.
      pose proof Hrun as Hpast. apply fill_gap_pushes in Hpast as (Hpast & _).
      eapply fill_gap_forward in Hrun; [|exact Hgap|exact Hlen|exact Hd].
      destruct Hrun as (new1 & Hq1 & Hall1).
      apply (IH Hsort' Hdur' (fst br)) in H; [|exact Hpast|exact Hrest].
      destruct H as (new2 & Hq2 & Hall2).
      exists (new1 ++ new2). split.
      * rewrite push_scheduled_app, <- Hq1. exact Hq2.
      * apply Forall_app. split.
        -- eapply Forall_impl; [|exact Hall1]. simpl.
           intros i (Hi & Hs & Hbuf).
           split; [lia|]. split; [exact Hs|]. split; [exists br; split; [now left|lia]|].
           intros b' [<- | Hin] Hlt'; [exact Hbuf|].
           rewrite Forall_forall in Hrest. specialize (Hrest _ Hin). lia.
        -- eapply Forall_impl; [|exact Hall2]. simpl.
           intros i (Hi & Hs & (b & Hb & Hlt) & Hnext).
           split; [lia|]. split; [exact Hs|]. split; [exists b; auto|].
           intros b' [<- | Hin] Hlt'; [lia | auto].
Qed.

Lemma plan_interrupts_more_fuel fuel fuel' :
  (fuel <= fuel')%nat ->
  forall break_list calculate_time iq oracle n r n',
    plan_interrupts fuel w break_list calculate_time iq oracle n = Ok r n' ->
    plan_interrupts fuel' w break_list calculate_time iq oracle n = Ok r n'.
Proof.
  intros Hle.
  induction break_list as [|br rest IH]; intros calc iq oracle n r n' H;
    [exact H|].
  simpl in H |- *. destruct (fst br <=? calc); [apply IH; exact H|].
  bind_inv H. unfold bind.
  erewrite fill_gap_more_fuel; [|exact Hrun|exact Hle].
  apply IH. exact H.
Qed.

(** The loop over the boundaries ends, given enough fuel. *)
Lemma plan_interrupts_returns :
  valid_ranges w -> progressing w ->
  forall break_list,
    Forall (fun b => 0 <= snd b) break_list ->
    forall calculate_time iq oracle n,
    exists fuel0, forall fuel, (fuel0 <= fuel)%nat ->
    exists r n',
      plan_interrupts fuel w break_list calculate_time iq oracle n = Ok r n'.
Proof.
  intros Hv Hp.
  induction break_list as [|br rest IH]; intros Hdur calc iq oracle n.
  - exists O. intros fuel _. eexists _, _. reflexivity.
  - inversion Hdur as [|? ? Hd Hdur']; subst. simpl.
    destruct (fst br <=? calc).
    + apply IH. exact Hdur'.
    + set (f1 := (Z.to_nat (fst br - calc) + 1)%nat).
      destruct (@fill_gap_returns w br f1 Hv Hp Hd calc iq oracle n (le_n _))
        as (r1 & n1 & Hr1).
      destruct (IH Hdur' (fst r1) (snd r1) oracle n1) as (f2 & Hf2).
      exists (Nat.max f1 f2). intros fuel Hfuel.
      unfold bind.
      erewrite fill_gap_more_fuel; [|exact Hr1|lia].
      apply Hf2. lia.
Qed.

End PlanInterrupts.

(** ** The break queue built by [__generate_schedule] *)

Section PutBreaks.
Variable w : Workday.

Lemma put_breaks_ok :
  forall brs bq oracle n bq' n',
    put_breaks w brs bq oracle n = Ok bq' n' ->
    exists new, bq' = bq ++ new /\ Forall2 (deviated w) brs new.
Proof.
  induction brs as [|br brs IH]; intros bq oracle n bq' n' H.
  - injection H as <- <-. exists []. rewrite app_nil_r. split; [reflexivity|constructor].
  - simpl in H. bind_inv H. bind_inv H.
    apply randint_ok in Hrun as [Hs _]. apply randint_ok in Hrun0 as [He _].
    apply IH in H. destruct H as (new & -> & Hall).
    exists ((fst br + a, snd br + a0 - (fst br + a)) :: new). split.
    + rewrite <- app_assoc. reflexivity.
    + constructor; [|exact Hall]. unfold deviated. cbn [fst snd]. lia.
Qed.

Lemma put_breaks_returns :
  0 <= start_break_dev w -> 0 <= end_break_dev w ->
  forall brs bq oracle n, exists bq' n', put_breaks w brs bq oracle n = Ok bq' n'.
Proof.
  intros Hs He.
  induction brs as [|br brs IH]; intros bq oracle n.
  - eexists _, _. reflexivity.
  - simpl. unfold bind at 1. rewrite randint_returns by lia.
    unfold bind at 1. rewrite randint_returns by lia.
    apply IH.
Qed.

End PutBreaks.

Section GenerateSchedule.
Variables (fuel : nat) (w : Workday) (now next_start : Z) (tab : list job).

(** The run of [__generate_schedule] taken apart. *)
Lemma generate_schedule_ok c oracle n sch n' :
  generate_schedule fuel w now next_start tab c oracle n = Ok sch n' ->
  exists dev_end dev_start new_breaks r n1,
    - (60 * end_work_dev w) <= dev_end <= 60 * end_work_dev w
    /\ - (60 * start_work_dev w) <= dev_start <= 60 * start_work_dev w
    /\ Forall2 (deviated w) (configured_breaks w) new_breaks
    /\ plan_interrupts fuel w
         (boundaries
            (break_queue c
             ++ (if 0 <? start_time w + dev_start - now
                 then [(now, start_time w + dev_start - now)] else [])
             ++ new_breaks)
            (end_time w + dev_end))
         now (interrupt_queue c) oracle n1 = Ok r n'
    /\ sch = mkScheduled
               (if end_time w + dev_end <? start_time w + dev_start
                then Exits 0 else Returns)
               (mkController
                  (break_queue c
                   ++ (if 0 <? start_time w + dev_start - now
                       then [(now, start_time w + dev_start - now)] else [])
                   ++ new_breaks)
                  (snd r) (Some (end_time w + dev_end))
                  (Some (start_time w + dev_start)))
               (schedule_next_execution next_start tab).
Proof.
  unfold generate_schedule. intros H.
  bind_inv H. bind_inv H. bind_inv H. bind_inv H.
  apply randint_ok in Hrun as [Hde _]. apply randint_ok in Hrun0 as [Hds _].
  rename a into dev_end, a0 into dev_start, a1 into bq, a2 into r.
  replace (start_time w - now + dev_start) with (start_time w + dev_start - now)
    in * by lia.
  assert (Hbq : exists new,
             bq = break_queue c
                  ++ (if 0 <? start_time w + dev_start - now
                      then [(now, start_time w + dev_start - now)] else [])
                  ++ new
             /\ Forall2 (deviated w) (configured_breaks w) new).
  { unfold configured_breaks. destruct (breaks w) as [brs|].
    - apply put_breaks_ok in Hrun1. destruct Hrun1 as (new & -> & Hall).
      exists new. split; [|exact Hall].
      destruct (0 <? start_time w + dev_start - now);
        rewrite <- ?app_assoc; simpl; rewrite ?app_nil_r; reflexivity.
    - injection Hrun1 as <- <-. exists []. split; [|constructor].
      destruct (0 <? start_time w + dev_start - now);
        rewrite ?app_nil_r; reflexivity. }
  destruct Hbq as (new & -> & Hall).
  exists dev_end, dev_start, new, r, n2.
  split; [lia|]. split; [lia|]. split; [exact Hall|].
  destruct (end_time w + dev_end <? start_time w + dev_start);
    injection H as <- <-; (split; [exact Hrun2|reflexivity]).
Qed.

End GenerateSchedule.

(** [__generate_schedule] comes to its end whenever the configuration
    leaves every [random.randint] a range, lets every candidate
    interruption move the cursor forward and keeps every break from being
    turned round: enough fuel gives the schedule, whatever the draws. *)
Theorem generate_schedule_returns w now next_start tab oracle n :
  valid_ranges w -> progressing w -> breaks_outlast_deviations w ->
  exists fuel0, forall fuel, (fuel0 <= fuel)%nat ->
  exists sch n',
    generate_schedule fuel w now next_start tab init oracle n = Ok sch n'.
Proof.
  intros Hv Hp Hb. pose proof Hv as (Hsw & Hew & Hsb & Heb & _ & _).
  unfold generate_schedule.
  unfold bind at 1. rewrite randint_returns by lia.
  unfold bind at 1. rewrite randint_returns by lia.
  set (dev_end := _ + oracle n mod _).
  set (dev_start := _ + oracle (S n) mod _).
  set (bq0 := if 0 <? start_time w - now + dev_start then _ else _).
  assert (Hbq0 : Forall (fun b : entry => 0 <= snd b) bq0).
  { subst bq0. destruct (0 <? start_time w - now + dev_start) eqn:E.
    - apply Z.ltb_lt in E. repeat constructor. simpl. lia.
    - constructor. }
  assert (Hput : exists bq n1,
             match breaks w with
             | Some brs => put_breaks w brs bq0
             | None => ret bq0
             end oracle (S (S n)) = Ok bq n1
             /\ Forall (fun b : entry => 0 <= snd b) bq).
  { unfold breaks_outlast_deviations, configured_breaks in Hb.
    destruct (breaks w) as [brs|].
    - destruct (put_breaks_returns w Hsb Heb brs bq0 oracle (S (S n)))
        as (bq & n1 & Hrun).
      exists bq, n1. split; [exact Hrun|].
      apply put_breaks_ok in Hrun. destruct Hrun as (new & -> & Hall).
      apply Forall_app. split; [exact Hbq0|].
      clear - Hall Hb. induction Hall as [|b e brs new Hd _ IH]; [constructor|].
      inversion Hb; subst. constructor; [|apply IH; assumption].
      unfold deviated in Hd. lia.
    - exists bq0, (S (S n)). split; [reflexivity|exact Hbq0]. }
  destruct Hput as (bq & n1 & Hrun & Hdur).
  unfold bind at 1. rewrite Hrun.
  destruct (plan_interrupts_returns Hv Hp
              (break_list := boundaries bq (end_time w + dev_end)))
    with (calculate_time := now) (iq := interrupt_queue init)
         (oracle := oracle) (n := n1) as (fuel0 & Hfuel).
  { unfold boundaries. apply Forall_app. split; [exact Hdur|].
    repeat constructor. simpl. lia. }
  exists fuel0. intros fuel Hle.
  destruct (Hfuel fuel Hle) as (r & n2 & Hplan).
  unfold bind. rewrite Hplan.
  destruct (end_time w + dev_end <? start_time w + dev_start);
    eexists _, _; reflexivity.
Qed.

Lemma generate_schedule_returns_witness :
  let w := mkWorkday 32400 61200 0 0 0 0 (Some [(43200, 46800)]) 10 15 120 0 in
  exists fuel0, forall fuel, (fuel0 <= fuel)%nat ->
  exists sch n',
    generate_schedule fuel w 28800 118800 [] init (fun k => Z.of_nat k) 0%nat
      = Ok sch n'.
Proof.
  intros w. apply generate_schedule_returns.
  - unfold valid_ranges. simpl. lia.
  - unfold progressing. simpl. lia.
  - unfold breaks_outlast_deviations. simpl. repeat constructor. simpl. lia.
Defined.

(** ** The end of [__generate_schedule]: the next execution and the exit *)

(** What a finished run of [__generate_schedule] leaves behind: the cron
    table holds the trigger for [next_start], and the run ended in
    [exit(0)] exactly when the start lies after the end of the day. *)
Lemma generate_schedule_end fuel w now next_start tab c oracle n sch n' :
  generate_schedule fuel w now next_start tab c oracle n = Ok sch n' ->
  crontab sch = schedule_next_execution next_start tab
  /\ In (mkJob "crawler_execution" next_start) (crontab sch)
  /\ exists s e,
       ctl_start_time (ctl sch) = Some s
       /\ end_crawling_time (ctl sch) = Some e
       /\ (e < s -> how sch = Exits 0)
       /\ (s <= e -> how sch = Returns).
Proof.
  intros H. apply generate_schedule_ok in H.
  destruct H as (dev_end & dev_start & new & r & n1 & _ & _ & _ & _ & ->).
  cbn [crontab ctl how ctl_start_time end_crawling_time].
  split; [reflexivity|]. split.
  - unfold schedule_next_execution. apply in_or_app. right. now left.
  - exists (start_time w + dev_start), (end_time w + dev_end).
    split; [reflexivity|]. split; [reflexivity|].
    destruct (end_time w + dev_end <? start_time w + dev_start) eqn:E.
    + apply Z.ltb_lt in E. split; [reflexivity | lia].
    + apply Z.ltb_ge in E. split; [lia | reflexivity].
Qed.

(** C3, as the code has it.  [__generate_schedule] registers the next
    execution, for the instant [next_start] that [get_start_date_next_day]
    returned, before it compares the deviated start with the deviated end
    of the day.  So every run that gets past the draws and the loops that
    plan the interruptions leaves the trigger for [next_start] in the cron
    table, whichever way it ends, and it ends in [exit(0)] exactly when
    the start lies after the end of the day.  The run of the constructor
    does get that far, whatever the draws, when the configuration leaves
    every [random.randint] a range, lets every candidate interruption move
    the cursor forward and keeps every break from being turned round. *)
Theorem next_execution_registered_before_exit w now next_start tab oracle n :
  (forall fuel c sch n',
     generate_schedule fuel w now next_start tab c oracle n = Ok sch n' ->
     crontab sch = schedule_next_execution next_start tab
     /\ In (mkJob "crawler_execution" next_start) (crontab sch)
     /\ exists s e,
          ctl_start_time (ctl sch) = Some s
          /\ end_crawling_time (ctl sch) = Some e
          /\ (e < s -> how sch = Exits 0)
          /\ (s <= e -> how sch = Returns))
  /\ (valid_ranges w -> progressing w -> breaks_outlast_deviations w ->
      exists fuel0, forall fuel, (fuel0 <= fuel)%nat ->
      exists sch n',
        generate_schedule fuel w now next_start tab init oracle n = Ok sch n'
        /\ In (mkJob "crawler_execution" next_start) (crontab sch)
        /\ exists s e,
             ctl_start_time (ctl sch) = Some s
             /\ end_crawling_time (ctl sch) = Some e
             /\ (e < s -> how sch = Exits 0)
             /\ (s <= e -> how sch = Returns)).
Proof.
  split.
  - intros fuel c sch n' H. exact (generate_schedule_end _ _ _ _ _ _ _ _ H).
  - intros Hv Hp Hb.
    destruct (@generate_schedule_returns w now next_start tab oracle n Hv Hp Hb)
      as (fuel0 & Hfuel).
    exists fuel0. intros fuel Hle.
    destruct (Hfuel fuel Hle) as (sch & n' & Hrun).
    exists sch, n'. split; [exact Hrun|].
    apply generate_schedule_end in Hrun. tauto.
Qed.

(** A day that starts at 18:00 and ends at 17:00, with a lunch break and
    interruptions of 10 to 15 minutes every two hours: the run comes to
    its end, and it exits with the trigger of the next day in the cron
    table. *)
Lemma next_execution_registered_before_exit_witness :
  let w := mkWorkday 64800 61200 0 0 0 0 (Some [(43200, 46800)]) 10 15 120 0 in
  (exists sch n',
     generate_schedule 10 w 28800 118800 [] init (fun _ => 0) 0%nat = Ok sch n'
     /\ how sch = Exits 0
     /\ In (mkJob "crawler_execution" 118800) (crontab sch))
  /\ (exists fuel0, forall fuel, (fuel0 <= fuel)%nat ->
      exists sch n',
        generate_schedule fuel w 28800 118800 [] init (fun _ => 0) 0%nat
          = Ok sch n'
        /\ In (mkJob "crawler_execution" 118800) (crontab sch)).
Proof.
  intros w.
  destruct (next_execution_registered_before_exit
              w 28800 118800 [] (fun _ => 0) 0%nat) as [Hend Hruns].
  split.
  - eexists _, _. split; [vm_compute; reflexivity|].
    destruct (Hend 10%nat init _ _ eq_refl)
      as (_ & Hin & s & e & Hs & He & Hexit & _).
    split; [|exact Hin].
    injection Hs as <-. injection He as <-. apply Hexit. lia.
  - destruct Hruns as (fuel0 & Hfuel).
    + unfold valid_ranges. simpl. lia.
    + unfold progressing. simpl. lia.
    + unfold breaks_outlast_deviations. simpl. repeat constructor. simpl. lia.
    + exists fuel0. intros fuel Hle.
      destruct (Hfuel fuel Hle) as (sch & n' & Hrun & Hin & _).
      exists sch, n'. split; [exact Hrun | exact Hin].
Defined.

(** C3 as stated fails.  On the day that starts at 18:00 and ends at
    17:00, with no deviation, the run exits with status 0 and the cron
    table, empty before, holds the trigger of the next day. *)
Lemma infeasible_day_registers_next_execution :
  let w := mkWorkday 64800 61200 0 0 0 0 None 10 15 120 0 in
  exists sch n',
    generate_schedule 10 w 28800 118800 [] init (fun _ => 0) 0%nat = Ok sch n'
    /\ ctl_start_time (ctl sch) = Some 64800
    /\ end_crawling_time (ctl sch) = Some 61200
    /\ how sch = Exits 0
    /\ crontab sch = [mkJob "crawler_execution" 118800]
    /\ crontab sch <> [].
Proof.
  intros w. eexists _, _. split; [vm_compute; reflexivity|].
  repeat split; discriminate.
Qed.

(** ** The buffer before the next boundary *)

(** The interruptions that [__generate_schedule] queues come in one group
    per boundary (the breaks of the break queue, then the end of the day),
    the group pushed while the walk had that boundary ahead of its cursor;
    every interruption of a group ends at least 600 seconds before the
    boundary of its group starts. *)
Lemma interrupts_grouped_by_boundary
  fuel w now next_start tab oracle n sch n' :
  generate_schedule fuel w now next_start tab init oracle n = Ok sch n' ->
  exists e groups,
    end_crawling_time (ctl sch) = Some e
    /\ interrupt_queue (ctl sch) = push_scheduled (List.concat groups) []
    /\ Forall2 (fun g b => Forall (buffered b) g)
               groups (boundaries (break_queue (ctl sch)) e)
    /\ Forall (fun i => exists b,
                 In b (boundaries (break_queue (ctl sch)) e) /\ buffered b i)
              (interrupt_queue (ctl sch)).
Proof.
  intros H. apply generate_schedule_ok in H.
  destruct H as (dev_end & dev_start & new & r & n1 & _ & _ & _ & Hplan & ->).
  cbn [ctl end_crawling_time interrupt_queue break_queue].
  apply plan_interrupts_groups in Hplan. destruct Hplan as (groups & Hq & Hall).
  assert (Hbuf : Forall2 (fun g b => Forall (buffered b) g) groups
                   (boundaries (break_queue init ++
                      (if 0 <? start_time w + dev_start - now
                       then [(now, start_time w + dev_start - now)] else [])
                      ++ new) (end_time w + dev_end))).
  { eapply Forall2_impl; [|exact Hall]. intros g b Hg.
    eapply Forall_impl; [|exact Hg]. unfold buffered. intros i Hi. lia. }
  exists (end_time w + dev_end), groups.
  split; [reflexivity|]. split; [exact Hq|]. split; [exact Hbuf|].
  rewrite Hq, push_scheduled_rev, app_nil_r. apply Forall_rev.
  clear - Hbuf. induction Hbuf as [|g b gs bs Hg _ IH]; [constructor|].
  simpl. apply Forall_app. split.
  - eapply Forall_impl; [|exact Hg]. intros i Hi. exists b. split; [now left|exact Hi].
  - eapply Forall_impl; [|exact IH]. intros i (b' & Hin & Hi).
    exists b'. split; [now right|exact Hi].
Qed.

(** When the boundaries come out in start order and no break ends before
    it starts, the boundary of the group is the next one in time: some
    boundary starts after the interruption does, and whichever boundary
    starts after it starts more than 600 seconds after it has ended. *)
Lemma interrupts_clear_later_boundaries
  fuel w now next_start tab oracle n sch n' e :
  0 <= time_btw_interrupts w - time_btw_interrupts_dev w ->
  0 <= min_interrupt_length w ->
  generate_schedule fuel w now next_start tab init oracle n = Ok sch n' ->
  end_crawling_time (ctl sch) = Some e ->
  StronglySorted (fun a b => fst a <= fst b)
                 (boundaries (break_queue (ctl sch)) e) ->
  Forall (fun b => 0 <= snd b) (break_queue (ctl sch)) ->
  Forall (fun i =>
            (exists b, In b (boundaries (break_queue (ctl sch)) e)
                       /\ fst i < fst b)
            /\ forall b, In b (boundaries (break_queue (ctl sch)) e) ->
                         fst i < fst b -> fst i + snd i + 600 < fst b)
         (interrupt_queue (ctl sch)).
Proof.
  intros Hgap Hlen H He Hsort Hdur. apply generate_schedule_ok in H.
  destruct H as (dev_end & dev_start & new & r & n1 & _ & _ & _ & Hplan & ->).
  cbn [ctl end_crawling_time interrupt_queue break_queue] in *.
  injection He as <-.
  set (bl := boundaries _ _) in *.
  assert (Hlow : exists floor, floor <= now /\ Forall (fun b => floor <= fst b) bl).
  { destruct bl as [|b0 rest]; [exists now; split; [lia|constructor]|].
    exists (Z.min now (fst b0)). split; [lia|].
    inversion Hsort as [|? ? _ Hhd]; subst.
    constructor; [lia|]. eapply Forall_impl; [|exact Hhd]. simpl. lia. }
  destruct Hlow as (floor & Hfloor & Hlow).
  eapply plan_interrupts_forward in Hplan;
    [|exact Hgap|exact Hlen|exact Hsort| |exact Hfloor|exact Hlow].
  - destruct Hplan as (pushed & -> & Hall).
    rewrite push_scheduled_rev, app_nil_r. apply Forall_rev.
    eapply Forall_impl; [|exact Hall]. simpl. intros i (_ & _ & Hex & Hnext).
    split; assumption.
  - subst bl. unfold boundaries. apply Forall_app. split; [exact Hdur|].
    repeat constructor. simpl. lia.
Qed.

(** C5, as the code has it.  Every interruption that
    [__generate_schedule] queues ends at least 600 seconds before the start
    of the boundary in whose gap it was placed.  When the gaps and lengths
    drawn cannot be negative, the boundaries are in start order and no
    break ends before it starts, that boundary is the next one after the
    interruption: a boundary starts after it, and every boundary that does
    starts at least 600 seconds after the interruption has ended. *)
Theorem interrupt_buffer_before_boundary
  fuel w now next_start tab oracle n sch n' :
  generate_schedule fuel w now next_start tab init oracle n = Ok sch n' ->
  exists e,
    end_crawling_time (ctl sch) = Some e
    /\ (exists groups,
          interrupt_queue (ctl sch) = push_scheduled (List.concat groups) []
          /\ Forall2 (fun g b => Forall (buffered b) g)
                     groups (boundaries (break_queue (ctl sch)) e))
    /\ (0 <= time_btw_interrupts w - time_btw_interrupts_dev w ->
        0 <= min_interrupt_length w ->
        StronglySorted (fun a b => fst a <= fst b)
                       (boundaries (break_queue (ctl sch)) e) ->
        Forall (fun b => 0 <= snd b) (break_queue (ctl sch)) ->
        Forall (fun i =>
                  (exists b, In b (boundaries (break_queue (ctl sch)) e)
                             /\ fst i < fst b)
                  /\ forall b, In b (boundaries (break_queue (ctl sch)) e) ->
                               fst i < fst b -> buffered b i)
               (interrupt_queue (ctl sch))).
Proof.
  intros H.
  destruct (@interrupts_grouped_by_boundary _ _ _ _ _ _ _ _ _ H)
    as (e & groups & He & Hq & Hall & _).
  exists e. split; [exact He|]. split; [exists groups; split; assumption|].
  intros Hgap Hlen Hsort Hdur.
  eapply Forall_impl;
    [|exact (@interrupts_clear_later_boundaries
               _ _ _ _ _ _ _ _ _ _ Hgap Hlen H He Hsort Hdur)].
  simpl. intros i [Hex Hnext]. split; [exact Hex|].
  intros b Hin Hlt. unfold buffered. specialize (Hnext b Hin Hlt). lia.
Qed.

(** The 9-to-17 day with one break at noon, built at 8:00: two
    interruptions are queued, each ahead of a boundary and ending ten
    minutes or more before any boundary that starts after it. *)
Lemma interrupt_buffer_before_boundary_witness :
  let w := mkWorkday 32400 61200 0 0 0 0 (Some [(43200, 46800)]) 10 15 120 0 in
  let bl := [(28800, 3600); (43200, 3600); (61200, 1)] in
  exists sch n',
    generate_schedule 10 w 28800 118800 [] init (fun k => Z.of_nat k) 0%nat
      = Ok sch n'
    /\ interrupt_queue (ctl sch) = [(54000, 609); (39600, 605)]
    /\ Forall (fun i =>
                 (exists b, In b bl /\ fst i < fst b)
                 /\ forall b, In b bl -> fst i < fst b -> buffered b i)
              (interrupt_queue (ctl sch)).
Proof.
  intros w bl. eexists _, _. split; [vm_compute; reflexivity|].
  split; [reflexivity|].
  destruct (interrupt_buffer_before_boundary
              10 w 28800 118800 [] (fun k => Z.of_nat k) 0%nat eq_refl)
    as (e & He & _ & Hnext).
  injection He as <-. apply Hnext.
  - simpl. lia.
  - simpl. lia.
  - repeat constructor; simpl; lia.
  - repeat constructor; simpl; lia.
Defined.

(** C5 as stated fails.  With an interval between interruptions of 10
    minutes and a deviation of 60 the gap drawn can be negative: after the
    break at 40000 has been passed, an interruption is placed at 39600 in
    the gap before the end of the day.  It lasts until 40200, and the next
    boundary after its start, the break at 40000, begins before it ends. *)
Lemma interrupt_overlaps_next_boundary :
  let w := mkWorkday 32400 61200 0 0 0 0 (Some [(40000, 40600)]) 10 10 10 60 in
  let oracle := fun k => match k with 8%nat => 2000 | _ => 7200 end in
  exists sch n',
    generate_schedule 20 w 32400 118800 [] init oracle 0%nat = Ok sch n'
    /\ boundaries (break_queue (ctl sch)) 61200 = [(40000, 600); (61200, 1)]
    /\ In (39600, 600) (interrupt_queue (ctl sch))
    /\ 39600 < 40000
    /\ ~ buffered (40000, 600) (39600, 600).
Proof.
  intros w oracle. eexists _, _. split; [vm_compute; reflexivity|].
  split; [reflexivity|]. split; [simpl; tauto|]. split; [lia|].
  unfold buffered. simpl. lia.
Qed.

(** ** The order of the break queue *)

Lemma polls_breaks_in_queue_order (T : Z) :
  forall (c : controller),
    Forall (fun b => fst b <= T) (break_queue c) ->
    polls (repeat T (List.length (break_queue c))) c
      = (map snd (break_queue c), set_break_queue c []).
Proof.
  intros c. remember (break_queue c) as bq eqn:Hq.
  revert c Hq. induction bq as [|b bq IH]; intros c Hq Hall.
  - simpl. destruct c; simpl in *. subst. reflexivity.
  - inversion Hall as [|? ? Hb Hall']; subst.
    cbn [List.length repeat polls map].
    erewrite check_break_due; [|symmetry; exact Hq|exact Hb].
    pose proof (IH (set_break_queue c bq) eq_refl Hall') as IH'.
    unfold entry in *. rewrite IH'. reflexivity.
Qed.

(** Whenever it is polled, the break queue is consumed from its front:
    what is left of it is a tail of what it was. *)
Lemma polls_pop_breaks_from_front (ts : list Z) :
  forall c, exists popped,
    break_queue c = popped ++ break_queue (snd (polls ts c)).
Proof.
  induction ts as [|t ts IH]; intros c.
  - exists []. reflexivity.
  - cbn [polls]. unfold check_break_interrupt.
    destruct (break_queue c) as [|b rest] eqn:Hq.
    + destruct (Deque.peek (interrupt_queue c)) as [i|];
        [destruct (fst i <=? t)|];
        match goal with |- context [polls ts ?c'] =>
          destruct (IH c') as (popped & Hp); destruct (polls ts c') as [ds c'']
        end; exists popped; simpl in *; rewrite <- Hp; try rewrite Hq; reflexivity.
    + destruct (fst b <=? t).
      * destruct (IH (set_break_queue c rest)) as (popped & Hp).
        destruct (polls ts (set_break_queue c rest)) as [ds c''].
        exists (b :: popped). simpl in *. rewrite <- Hp. reflexivity.
      * destruct (Deque.peek (interrupt_queue c)) as [i|];
          [destruct (fst i <=? t)|];
          match goal with |- context [polls ts ?c'] =>
            destruct (IH c') as (popped & Hp); destruct (polls ts c') as [ds c'']
          end; exists popped; simpl in *; rewrite <- Hp; try rewrite Hq; reflexivity.
Qed.

Section BreakOrder.
Variable w : Workday.

(** Configured breaks whose starts lie at least twice the start deviation
    apart keep their order when they are deviated. *)
Lemma deviated_sorted brs new :
  Forall2 (deviated w) brs new ->
  Sorted (fun a b => fst a + 120 * start_break_dev w <= fst b) brs ->
  Sorted (fun a b => fst a <= fst b) new.
Proof.
  induction 1 as [|b e brs new Hd Hall IH]; intros Hs; [constructor|].
  inversion Hs as [|? ? Hs' Hhd]; subst.
  constructor; [apply IH; exact Hs'|].
  destruct Hall as [|b' e' brs' new' Hd' _]; [constructor|].
  inversion Hhd; subst. constructor.
  unfold deviated in Hd, Hd'. lia.
Qed.

End BreakOrder.

(** C6, as the code has it.  Let the configured breaks be listed with
    their starts at least twice the start deviation apart, none of them
    starting less than the start deviation after the moment the schedule
    is built.  Then the break queue is the configured breaks, each
    deviated within the configured magnitudes, in the configured order,
    after at most one leading break that waits for the day to start; its
    start times do not decrease; and polls made once all of them have
    started return their durations in that order and empty the queue,
    polls at any clock readings having consumed a front part of it. *)
Theorem break_queue_in_start_order
  fuel w now next_start tab oracle n sch n' :
  Sorted (fun a b => fst a + 120 * start_break_dev w <= fst b)
         (configured_breaks w) ->
  Forall (fun b => now + 60 * start_break_dev w <= fst b) (configured_breaks w) ->
  generate_schedule fuel w now next_start tab init oracle n = Ok sch n' ->
  Sorted (fun a b => fst a <= fst b) (break_queue (ctl sch))
  /\ (exists lead new,
        break_queue (ctl sch) = lead ++ new
        /\ (lead = [] \/ exists d, 0 < d /\ lead = [(now, d)])
        /\ Forall2 (deviated w) (configured_breaks w) new)
  /\ (forall ts, exists popped,
        break_queue (ctl sch) = popped ++ break_queue (snd (polls ts (ctl sch))))
  /\ forall T,
       Forall (fun b => fst b <= T) (break_queue (ctl sch)) ->
       polls (repeat T (List.length (break_queue (ctl sch)))) (ctl sch)
         = (map snd (break_queue (ctl sch)), set_break_queue (ctl sch) []).
Proof.
  intros Hsp Hafter H.
  split; [|split; [|split; [intros ts; apply polls_pop_breaks_from_front|]]];
    apply generate_schedule_ok in H;
    destruct H as (dev_end & dev_start & new & r & n1 & _ & _ & Hdev & _ & ->);
    cbn [ctl break_queue init app].
  - pose proof (deviated_sorted Hdev Hsp) as Hs.
    destruct (0 <? start_time w + dev_start - now); [|exact Hs].
    simpl. constructor; [exact Hs|].
    destruct Hdev as [|b e brs new' Hd _]; constructor.
    inversion Hafter; subst. unfold deviated in Hd. simpl. lia.
  - exists (if 0 <? start_time w + dev_start - now
            then [(now, start_time w + dev_start - now)] else []), new.
    split; [reflexivity|]. split; [|exact Hdev].
    destruct (0 <? start_time w + dev_start - now) eqn:E; [|now left].
    right. exists (start_time w + dev_start - now).
    apply Z.ltb_lt in E. split; [exact E|reflexivity].
  - intros T HT.
    match goal with |- context [polls _ ?c] =>
      exact (@polls_breaks_in_queue_order T c HT) end.
Qed.

(** The 9-to-17 day with breaks at 12:00 and 14:00, deviated by up to five
    minutes, built at 8:00: the queue is the wait for the start of the day
    and the two breaks, and it is consumed in that order. *)
Lemma break_queue_in_start_order_witness :
  let w := mkWorkday 32400 61200 0 0 5 0
             (Some [(43200, 46800); (50400, 52200)]) 10 15 120 0 in
  exists sch n',
    generate_schedule 10 w 28800 118800 [] init (fun k => Z.of_nat k) 0%nat
      = Ok sch n'
    /\ break_queue (ctl sch) = [(28800, 3600); (42902, 3898); (50104, 2096)]
    /\ Sorted (fun a b => fst a <= fst b) (break_queue (ctl sch))
    /\ fst (polls [60000; 60000; 60000] (ctl sch)) = [3600; 3898; 2096].
Proof.
  intros w. eexists _, _. split; [vm_compute; reflexivity|]. split; [reflexivity|].
  assert (Hsp : Sorted (fun a b => fst a + 120 * start_break_dev w <= fst b)
                       (configured_breaks w))
    by (simpl; repeat constructor; simpl; lia).
  assert (Hafter : Forall (fun b => 28800 + 60 * start_break_dev w <= fst b)
                          (configured_breaks w))
    by (simpl; repeat constructor; simpl; lia).
  destruct (break_queue_in_start_order
              10 w 28800 118800 [] (fun k => Z.of_nat k) 0%nat Hsp Hafter eq_refl)
    as (Hsorted & _ & _ & Hpolls).
  split; [exact Hsorted|].
  assert (HT : Forall (fun b : entry => fst b <= 60000)
                      [(28800, 3600); (42902, 3898); (50104, 2096)])
    by (repeat constructor; simpl; lia).
  exact (f_equal fst (Hpolls 60000 HT)).
Defined.

(** C6 as stated fails.  Two breaks that do not overlap, 12:00-13:00 and
    13:05-14:05, with a start deviation of 60 minutes: the first start is
    drawn 50 minutes late and the second 60 minutes early, so the break
    queue holds the break that starts at 46200 in front of the break that
    starts at 43500, and they are consumed in that order. *)
Lemma break_queue_out_of_start_order :
  let w := mkWorkday 32400 61200 0 0 60 0
             (Some [(43200, 46800); (47100, 50700)]) 10 15 120 0 in
  let oracle := fun k => match k with 2%nat => 6600 | _ => 0 end in
  exists sch n',
    generate_schedule 10 w 32400 118800 [] init oracle 0%nat = Ok sch n'
    /\ break_queue (ctl sch) = [(46200, 600); (43500, 7200)]
    /\ ~ Sorted (fun a b => fst a <= fst b) (break_queue (ctl sch))
    /\ fst (polls [60000; 60000] (ctl sch)) = [600; 7200].
Proof.
  intros w oracle. eexists _, _. split; [vm_compute; reflexivity|].
  split; [reflexivity|]. split; [|reflexivity].
  cbn [ctl break_queue]. intros Hs.
  inversion Hs as [|? ? _ Hhd]; subst. inversion Hhd; subst.
  simpl in *. lia.
Qed.

(** * The control signals *)

Import Control.

(** ** What a command does to the signals *)

Section Commands.
Variable s : signals.

Lemma execute_pause : execute_command "pause" s = (true, pause s).
Proof. reflexivity. Qed.

Lemma execute_resume : execute_command "resume" s = (true, resume s).
Proof. reflexivity. Qed.

Lemma execute_terminate : execute_command "terminate" s = (false, terminate s).
Proof. reflexivity. Qed.

Lemma execute_solved : execute_command "solved" s = (true, solved s).
Proof. reflexivity. Qed.

(** A word of the command list is one of the four commands; any other
    word leaves the signals alone. *)
Lemma execute_command_cases (word : string) :
  snd (execute_command word s) = pause s /\ word = "pause"%string
  \/ snd (execute_command word s) = terminate s /\ word = "terminate"%string
  \/ snd (execute_command word s) = resume s /\ word = "resume"%string
  \/ snd (execute_command word s) = solved s /\ word = "solved"%string
  \/ snd (execute_command word s) = s.
Proof.
  unfold execute_command, command_list, crawl_command_execute,
    captcha_command_execute.
  destruct (String.eqb_spec word "pause") as [->|Hp]; [left; split; reflexivity|].
  destruct (String.eqb_spec word "terminate") as [->|Ht];
    [right; left; split; reflexivity|].
  destruct (String.eqb_spec word "resume") as [->|Hr];
    [right; right; left; split; reflexivity|].
  destruct (String.eqb_spec word "solved") as [->|Hs];
    [right; right; right; left; split; reflexivity|].
  right; right; right; right. reflexivity.
Qed.

Lemma execute_command_pause_event (word : string) :
  pause_event (snd (execute_command word s))
  = (String.eqb word "pause" || pause_event s)%bool.
Proof.
  unfold execute_command, command_list.
  destruct (String.eqb_spec word "pause") as [->|_]; [reflexivity|].
  destruct (String.eqb_spec word "terminate") as [->|_]; [reflexivity|].
  destruct (String.eqb_spec word "resume") as [->|_]; [reflexivity|].
  destruct (String.eqb_spec word "solved") as [->|_]; reflexivity.
Qed.

Lemma execute_command_terminate_event (word : string) :
  terminate_event (snd (execute_command word s))
  = (String.eqb word "terminate" || terminate_event s)%bool.
Proof.
  unfold execute_command, command_list.
  destruct (String.eqb_spec word "pause") as [->|_]; [reflexivity|].
  destruct (String.eqb_spec word "terminate") as [->|_]; [reflexivity|].
  destruct (String.eqb_spec word "resume") as [->|_]; [reflexivity|].
  destruct (String.eqb_spec word "solved") as [->|_]; reflexivity.
Qed.

Lemma execute_command_solved_condition (word : string) :
  word <> "solved"%string ->
  solved_condition (snd (execute_command word s)) = solved_condition s.
Proof.
  intros Hw.
  destruct (execute_command_cases word) as
    [[-> ->]|[[-> ->]|[[-> ->]|[[-> ->]|H]]]]; try reflexivity.
  - contradiction.
  - rewrite H. reflexivity.
Qed.

End Commands.

(** C8.  [resume] notifies the resume condition and leaves the pause event
    alone: after "pause" and then "resume" the pause event is still set.
    Of all the words the CLI can read, "pause" alone changes the pause
    event, and it sets it. *)
Theorem resume_keeps_pause_event (s : signals) :
  pause_event (resume (pause s)) = true
  /\ pause_event (snd (execute_command "resume" (snd (execute_command "pause" s))))
     = true
  /\ pause_event (resume s) = pause_event s
  /\ resume_condition (resume s) = notify (resume_condition s)
  /\ forall word,
       pause_event (snd (execute_command word s))
       = (String.eqb word "pause" || pause_event s)%bool.
Proof.
  repeat split. apply execute_command_pause_event.
Qed.

(** ** The wait for a solved CAPTCHA *)

Lemma waiting_after_wait (t : thread) (cond : Condition) :
  waiting t (wait t cond) = true.
Proof.
  unfold waiting, wait. rewrite existsb_app. simpl.
  destruct t; simpl; apply orb_true_r.
Qed.

Lemma solve_captcha_blocks (t : CaptchaType) (x : system) :
  t <> HONEYPOT -> blocked_on_captcha (solve_captcha t x).
Proof.
  intros Ht. unfold solve_captcha.
  destruct t; try contradiction; simpl; (split; [reflexivity|]);
    apply waiting_after_wait.
Qed.

(** No event but the command "solved" moves a crawler that is blocked on
    the solved condition. *)
Lemma blocked_step (e : event) (x x' : system) :
  blocked_on_captcha x -> e <> Command "solved" ->
  step e x = Some x' -> blocked_on_captcha x'.
Proof.
  intros [Hloc Hwait] He H. unfold step in H. rewrite Hloc in H.
  destruct e as [word|t| | | |d| |stop|status| ]; try discriminate.
  - destruct (cli_on x); [|discriminate].
    destruct (execute_command word (sig x)) as [on s] eqn:E.
    injection H as <-. split; [reflexivity|]. simpl.
    assert (Hw : word <> "solved"%string) by (intros ->; apply He; reflexivity).
    pose proof (execute_command_solved_condition (sig x) Hw) as Hs.
    rewrite E in Hs. simpl in Hs. rewrite Hs. exact Hwait.
  - rewrite Hwait in H. discriminate.
Qed.

Lemma blocked_steps (es : list event) :
  forall x x',
    blocked_on_captcha x ->
    Forall (fun e => e <> Command "solved") es ->
    steps es x = Some x' -> blocked_on_captcha x'.
Proof.
  induction es as [|e es IH]; intros x x' Hb Hall H.
  - injection H as <-. exact Hb.
  - inversion Hall as [|? ? He Hall']; subst. simpl in H.
    destruct (step e x) as [x1|] eqn:E; [|discriminate].
    apply (IH x1 x'); [|exact Hall'|exact H].
    eapply blocked_step; eassumption.
Qed.

(** C9.  On a CAPTCHA of any type but the honeypot the crawler waits on
    the solved condition.  That wait has no timeout, and whatever happens
    other than the command "solved", a terminate command included, finds
    the crawler still waiting afterwards; "terminate" only sets its event.
    On a honeypot nothing is waited for. *)
Theorem captcha_wait_until_solved (t : CaptchaType) (x : system) :
  (t <> HONEYPOT -> blocked_on_captcha (solve_captcha t x))
  /\ solve_captcha HONEYPOT x = x
  /\ (blocked_on_captcha x ->
      step TimedOut x = None
      /\ step Woken x = None
      /\ (cli_on x = true ->
          exists x', step (Command "terminate") x = Some x'
                     /\ terminate_event (sig x') = true
                     /\ blocked_on_captcha x')
      /\ forall es x',
           Forall (fun e => e <> Command "solved") es ->
           steps es x = Some x' -> blocked_on_captcha x').
Proof.
  split; [apply solve_captcha_blocks|]. split; [reflexivity|].
  intros Hb. pose proof Hb as [Hloc Hwait].
  split; [unfold step; rewrite Hloc; reflexivity|].
  split; [unfold step; rewrite Hloc, Hwait; reflexivity|].
  split.
  - intros Hon. unfold step. rewrite Hon, execute_terminate.
    eexists. split; [reflexivity|]. split; [reflexivity|].
    split; [exact Hloc|exact Hwait].
  - intros es x' Hall H. eapply blocked_steps; eassumption.
Qed.

(** A reCAPTCHA is met while the page is parsed: "terminate" and the
    passing of time leave the crawler waiting, and "solved" lets it go on;
    a honeypot does not stop it. *)
Lemma captcha_wait_until_solved_witness :
  let x := mkSystem (mkSignals false false [] []) NextPage true in
  blocked_on_captcha (solve_captcha RECAPTCHA x)
  /\ (forall x',
        steps [Command "pause"; Command "terminate"] (solve_captcha RECAPTCHA x)
          = Some x' -> blocked_on_captcha x')
  /\ step TimedOut (solve_captcha RECAPTCHA x) = None
  /\ steps [Captcha RECAPTCHA; Command "solved"; Woken] x = Some x
  /\ step (Captcha HONEYPOT) x = Some x.
Proof.
  intros x.
  destruct (captcha_wait_until_solved RECAPTCHA x) as (Hblock & _ & _).
  assert (Hb : blocked_on_captcha (solve_captcha RECAPTCHA x))
    by (apply Hblock; discriminate).
  destruct (captcha_wait_until_solved RECAPTCHA (solve_captcha RECAPTCHA x))
    as (_ & _ & Hstay).
  destruct (Hstay Hb) as (Htime & _ & _ & Hsteps).
  split; [exact Hb|]. split.
  - intros x' H.
    apply (Hsteps [Command "pause"; Command "terminate"] x'); [|exact H].
    repeat constructor; discriminate.
  - split; [exact Htime|]. split; reflexivity.
Defined.

(** ** The pause poll *)

(** Wherever the crawler stands, a pause event that is set stays set. *)
Lemma pause_event_stays_set (es : list event) :
  forall x x',
    pause_event (sig x) = true -> steps es x = Some x' ->
    pause_event (sig x') = true.
Proof.
  induction es as [|e es IH]; intros x x' Hp H.
  - injection H as <-. exact Hp.
  - simpl in H. destruct (step e x) as [x1|] eqn:E; [|discriminate].
    apply (IH x1 x'); [|exact H]. clear - Hp E.
    unfold step in E.
    destruct e as [word|t| | | |d| |stop|status| ].
    + assert (Hcmd : exists on,
                 x1 = mkSystem (snd (execute_command word (sig x))) (at_loc x) on).
      { destruct (at_loc x); (destruct (cli_on x); [|discriminate]);
          destruct (execute_command word (sig x)) as [on s];
          injection E as <-; eexists; reflexivity. }
      destruct Hcmd as (on & ->). simpl.
      rewrite execute_command_pause_event, Hp. apply orb_true_r.
    + destruct (at_loc x); try discriminate. injection E as <-.
      unfold solve_captcha. destruct (is_honeypot t); exact Hp.
    + destruct (at_loc x); try discriminate. injection E as <-. exact Hp.
    + destruct (at_loc x); try discriminate;
        match type of E with (if ?b then _ else _) = _ => destruct b end;
        try discriminate; injection E as <-; exact Hp.
    + destruct (at_loc x); try discriminate; injection E as <-; exact Hp.
    + destruct (at_loc x); try discriminate.
      destruct (0 <? d); injection E as <-; exact Hp.
    + destruct (at_loc x); try discriminate;
        match type of E with (if ?b then _ else _) = _ => destruct b eqn:Eb end;
        injection E as <-; simpl; congruence.
    + destruct (at_loc x); try discriminate.
      destruct stop; injection E as <-; exact Hp.
    + destruct (at_loc x); try discriminate. injection E as <-. exact Hp.
    + destruct (at_loc x); try discriminate; injection E as <-; exact Hp.
Qed.

Lemma paused_step (e : event) (x x' : system) :
  paused_for_good x -> step e x = Some x' -> paused_for_good x'.
Proof.
  intros [Hp Hl] H. unfold step in H.
  destruct e as [word|t| | | |d| |stop|status| ].
  - assert (Hcmd : exists on s,
               execute_command word (sig x) = (on, s)
               /\ x' = mkSystem s (at_loc x) on).
    { destruct (at_loc x); (destruct (cli_on x); [|discriminate]);
        destruct (execute_command word (sig x)) as [on s];
        injection H as <-; eexists _, _; split; reflexivity. }
    destruct Hcmd as (on & s & E & ->).
    pose proof (execute_command_pause_event (sig x) word) as Hpe.
    pose proof (execute_command_terminate_event (sig x) word) as Hte.
    rewrite E in Hpe, Hte. simpl in Hpe, Hte.
    split; simpl.
    + rewrite Hpe, Hp. apply orb_true_r.
    + destruct Hl as [Hl|[Hl Ht]]; [left; exact Hl|].
      right. split; [exact Hl|]. rewrite Hte, Ht. apply orb_true_r.
  - destruct Hl as [Hl|[Hl _]];
      destruct (at_loc x); try discriminate.
  - destruct Hl as [Hl|[Hl _]];
      destruct (at_loc x); try discriminate.
  - destruct Hl as [Hl|[Hl _]];
      destruct (at_loc x); try discriminate.
  - destruct Hl as [Hl|[Hl _]];
      destruct (at_loc x); try discriminate.
  - destruct Hl as [Hl|[Hl _]];
      destruct (at_loc x); try discriminate.
  - destruct Hl as [Hl|[Hl _]];
      destruct (at_loc x) eqn:L; try discriminate.
    + rewrite Hp in H. injection H as <-. split; [exact Hp|]. left. reflexivity.
    + destruct (terminate_event (sig x)) eqn:T; injection H as <-;
        (split; [exact Hp|]); [right; split; [reflexivity|exact T] | left; reflexivity].
  - destruct Hl as [Hl|[Hl _]];
      destruct (at_loc x); try discriminate.
  - destruct Hl as [Hl|[Hl _]];
      destruct (at_loc x); try discriminate.
  - destruct Hl as [Hl|[Hl _]];
      destruct (at_loc x); try discriminate.
Qed.

Lemma paused_steps (es : list event) :
  forall x x', paused_for_good x -> steps es x = Some x' -> paused_for_good x'.
Proof.
  induction es as [|e es IH]; intros x x' Hp H.
  - injection H as <-. exact Hp.
  - simpl in H. destruct (step e x) as [x1|] eqn:E; [|discriminate].
    apply (IH x1 x'); [|exact H]. eapply paused_step; eassumption.
Qed.

(** C10.  With the pause event set and the crawler in the pause poll,
    whatever commands are typed and however the crawler runs on, the pause
    event stays set and the crawler is in the poll or has exited on a set
    terminate event; it is never again in the loop body.  No word the CLI
    reads clears the pause event.  Polling, the crawler comes back to the
    test of the poll while terminate is not set and exits once it is. *)
Theorem pause_poll_left_only_by_termination (es : list event) (x x' : system) :
  pause_event (sig x) = true ->
  in_pause_poll (at_loc x) = true ->
  steps es x = Some x' ->
  pause_event (sig x') = true
  /\ (in_pause_poll (at_loc x') = true
      \/ at_loc x' = Exited /\ terminate_event (sig x') = true)
  /\ running (at_loc x') = false
  /\ (forall word,
        pause_event (snd (execute_command word (sig x'))) = true)
  /\ (at_loc x' = PauseTest ->
      steps [Crawl; Crawl] x'
      = Some (goto x' (if terminate_event (sig x') then Exited else PauseTest))).
Proof.
  intros Hp Hl H.
  assert (Hgood : paused_for_good x') by
    (eapply paused_steps; [split; [exact Hp|left; exact Hl]|exact H]).
  destruct Hgood as [Hp' Hl'].
  split; [exact Hp'|]. split; [exact Hl'|]. split; [|split].
  - destruct Hl' as [Hl'|[Hl' _]]; destruct (at_loc x'); try discriminate; reflexivity.
  - intros word. rewrite execute_command_pause_event, Hp'. apply orb_true_r.
  - intros Hat. cbn [steps]. unfold step. rewrite Hat, Hp'.
    cbn [goto at_loc sig]. destruct (terminate_event (sig x')); reflexivity.
Qed.

(** The operator pauses while the crawler is in the poll, then types
    "resume": the crawler polls on.  After "terminate" it exits. *)
Lemma pause_poll_left_only_by_termination_witness :
  let x := mkSystem (mkSignals true false [] []) PauseTest true in
  steps [Crawl; Command "resume"; Crawl; Crawl] x
    = Some (mkSystem (mkSignals true false [] []) PauseSleep true)
  /\ steps [Crawl; Command "resume"; Crawl; Command "terminate"; Crawl; Crawl] x
     = Some (mkSystem (mkSignals true true [] []) Exited false)
  /\ forall es x', steps es x = Some x' -> running (at_loc x') = false.
Proof.
  intros x. split; [reflexivity|]. split; [reflexivity|].
  intros es x' H.
  destruct (@pause_poll_left_only_by_termination es x x' eq_refl eq_refl H)
    as (_ & _ & Hrun & _).
  exact Hrun.
Defined.

(** * The configuration of the workday *)

Import Configuration.

Section WeekDays.
Variable schedule : week.

Lemma get_week_day_mod (a b : Z) :
  a mod 7 = b mod 7 -> get_week_day a = get_week_day b.
Proof. unfold get_week_day. intros ->. reflexivity. Qed.

Lemma get_week_day_named (weekdaynr : Z) :
  exists name, get_week_day weekdaynr = Some name.
Proof.
  unfold get_week_day.
  pose proof (Z.mod_pos_bound weekdaynr 7 ltac:(lia)) as Hm.
  destruct (Z.eqb_spec (weekdaynr mod 7) 0); [eexists; reflexivity|].
  destruct (Z.eqb_spec (weekdaynr mod 7) 1); [eexists; reflexivity|].
  destruct (Z.eqb_spec (weekdaynr mod 7) 2); [eexists; reflexivity|].
  destruct (Z.eqb_spec (weekdaynr mod 7) 3); [eexists; reflexivity|].
  destruct (Z.eqb_spec (weekdaynr mod 7) 4); [eexists; reflexivity|].
  destruct (Z.eqb_spec (weekdaynr mod 7) 5); [eexists; reflexivity|].
  destruct (Z.eqb_spec (weekdaynr mod 7) 6); [eexists; reflexivity|].
  lia.
Qed.

Lemma schedule_of_mod (a b : Z) :
  a mod 7 = b mod 7 -> schedule_of schedule a = schedule_of schedule b.
Proof.
  intros H. unfold schedule_of. rewrite (get_week_day_mod a b H). reflexivity.
Qed.

Lemma working_mod (a b : Z) :
  a mod 7 = b mod 7 -> working schedule a -> working schedule b.
Proof.
  intros H (d & Hd & Hw). exists d. split; [|exact Hw].
  rewrite <- (schedule_of_mod a b H). exact Hd.
Qed.

Lemma add_day_some (workday_date : Z) :
  workday_date + one_day <= max_datetime ->
  add_day workday_date = Some (workday_date + one_day).
Proof.
  intros H. unfold add_day. apply Z.leb_le in H. rewrite H. reflexivity.
Qed.

Lemma add_day_none (workday_date : Z) :
  max_datetime < workday_date + one_day -> add_day workday_date = None.
Proof.
  intros H. unfold add_day. apply Z.leb_gt in H. rewrite H. reflexivity.
Qed.

(** The loop stops at the first day with a workday that it comes to,
    unless the date it moves on leaves the range of [datetime] first. *)
Lemma next_workday_within (k : nat) :
  complete schedule ->
  forall weekdaynr workday_date fuel,
    working schedule (weekdaynr + Z.of_nat k) -> (k <= fuel)%nat ->
    exists (j : nat) d,
      (j <= k)%nat
      /\ (j = 0%nat \/ workday_date + Z.of_nat j * one_day <= max_datetime ->
          next_workday fuel schedule weekdaynr workday_date = Done d)
      /\ (j <> 0%nat -> max_datetime < workday_date + Z.of_nat j * one_day ->
          next_workday fuel schedule weekdaynr workday_date = OverflowError)
      /\ schedule_of schedule (weekdaynr + Z.of_nat j) = Some d
      /\ workday d <> []
      /\ forall i : nat, (i < j)%nat ->
                         ~ working schedule (weekdaynr + Z.of_nat i).
Proof.
  intros Hc. induction k as [|k IH]; intros nr wd fuel Hw Hf.
  - destruct Hw as (d & Hd & Hne). rewrite Z.add_0_r in Hd.
    exists O, d. split; [lia|]. split; [|split; [intros H; now contradiction H|]].
    + intros _. destruct fuel; simpl; rewrite Hd; destruct (workday d);
        try contradiction; reflexivity.
    + rewrite Z.add_0_r. split; [exact Hd|]. split; [exact Hne|]. intros i Hi. lia.
  - destruct (schedule_of schedule nr) as [d|] eqn:Hd; [|now apply Hc in Hd].
    destruct (workday d) as [|s rest] eqn:Hwd.
    + destruct fuel as [|fuel]; [lia|].
      destruct (IH (nr + 1) (wd + one_day) fuel)
        as (j & d' & Hj & Hdone & Hover & Hd' & Hne & Hbefore).
      * replace (nr + 1 + Z.of_nat k) with (nr + Z.of_nat (S k)) by lia. exact Hw.
      * lia.
      * exists (S j), d'. split; [lia|]. split; [|split].
        -- intros [Hz|Hrange]; [discriminate|].
           simpl. rewrite Hd, Hwd.
           rewrite add_day_some by (unfold one_day in *; lia).
           apply Hdone. right. unfold one_day in *. lia.
        -- intros _ Hrange. simpl. rewrite Hd, Hwd.
           destruct (Z.le_gt_cases (wd + one_day) max_datetime) as [Hin|Hout].
           ++ rewrite add_day_some by exact Hin.
              apply Hover; [|unfold one_day in *; lia].
              intros ->. unfold one_day in *. lia.
           ++ rewrite add_day_none by exact Hout. reflexivity.
        -- replace (nr + Z.of_nat (S j)) with (nr + 1 + Z.of_nat j) by lia.
           split; [exact Hd'|]. split; [exact Hne|].
           intros i Hi (d0 & Hd0 & Hne0). destruct i as [|i].
           ++ rewrite Z.add_0_r, Hd in Hd0. injection Hd0 as <-. contradiction.
           ++ apply (Hbefore i ltac:(lia)). exists d0. split; [|exact Hne0].
              replace (nr + 1 + Z.of_nat i) with (nr + Z.of_nat (S i)) by lia.
              exact Hd0.
    + exists O, d. split; [lia|]. split; [|split; [intros H; now contradiction H|]].
      * intros _. destruct fuel; simpl; rewrite Hd, Hwd; reflexivity.
      * rewrite Z.add_0_r. split; [exact Hd|]. split; [congruence|].
        intros i Hi. lia.
Qed.

Lemma next_workday_search (weekdaynr some_day workday_date : Z) (fuel : nat) :
  complete schedule ->
  working schedule some_day ->
  (6 <= fuel)%nat ->
  exists (j : nat) d,
    (j <= 6)%nat
    /\ (j = 0%nat \/ workday_date + Z.of_nat j * one_day <= max_datetime ->
        next_workday fuel schedule weekdaynr workday_date = Done d)
    /\ (j <> 0%nat -> max_datetime < workday_date + Z.of_nat j * one_day ->
        next_workday fuel schedule weekdaynr workday_date = OverflowError)
    /\ schedule_of schedule (weekdaynr + Z.of_nat j) = Some d
    /\ workday d <> []
    /\ forall i : nat, (i < j)%nat -> ~ working schedule (weekdaynr + Z.of_nat i).
Proof.
  intros Hc Hw Hf.
  set (k := Z.to_nat ((some_day - weekdaynr) mod 7)).
  pose proof (Z.mod_pos_bound (some_day - weekdaynr) 7 ltac:(lia)) as Hk.
  destruct (@next_workday_within k Hc weekdaynr workday_date fuel)
    as (j & d & Hj & H).
  - apply (@working_mod some_day (weekdaynr + Z.of_nat k)); [|exact Hw].
    subst k. rewrite Z2Nat.id by lia.
    rewrite Zplus_mod_idemp_r. f_equal. lia.
  - subst k. lia.
  - exists j, d. split; [subst k; lia|exact H].
Qed.

(** In a week in which some day has a workday, the search for the next
    workday ends within six steps from any day, at the first day with a
    workday from that day on: it returns that day, unless the date that
    the loop has moved on by then lies after the year 9999, in which case
    it raises [OverflowError]. *)
Theorem next_workday_finds_first
  (weekdaynr some_day workday_date : Z) (fuel : nat) :
  complete schedule ->
  working schedule some_day ->
  (6 <= fuel)%nat ->
  exists (j : nat) d,
    (j <= 6)%nat
    /\ (j = 0%nat \/ workday_date + Z.of_nat j * one_day <= max_datetime ->
        next_workday fuel schedule weekdaynr workday_date = Done d)
    /\ (j <> 0%nat -> max_datetime < workday_date + Z.of_nat j * one_day ->
        next_workday fuel schedule weekdaynr workday_date = OverflowError)
    /\ schedule_of schedule (weekdaynr + Z.of_nat j) = Some d
    /\ workday d <> []
    /\ forall i : nat, (i < j)%nat -> ~ working schedule (weekdaynr + Z.of_nat i).
Proof.
  intros Hc Hw Hf.
  exact (@next_workday_search weekdaynr some_day workday_date fuel Hc Hw Hf).
Qed.

(** The number of days that can be added to [workday_date] before the sum
    leaves the range of [datetime]. *)
Lemma days_left_step_upto (last workday_date : Z) :
  workday_date + 86400 <= last ->
  Z.to_nat ((last - workday_date) / 86400)
  = S (Z.to_nat ((last - (workday_date + 86400)) / 86400)).
Proof.
  intros H.
  replace (last - workday_date)
    with ((last - (workday_date + 86400)) + 1 * 86400) by lia.
  rewrite Z.div_add by lia.
  rewrite Z2Nat.inj_add; [|apply Z.div_pos; lia|lia].
  change (Z.to_nat 1) with 1%nat. apply Nat.add_1_r.
Qed.

Lemma days_left_none_upto (last workday_date : Z) :
  last < workday_date + 86400 ->
  Z.to_nat ((last - workday_date) / 86400) = 0%nat.
Proof.
  intros H.
  destruct (Z.le_gt_cases 0 (last - workday_date)) as [Hpos|Hneg].
  - rewrite Z.div_small by lia. reflexivity.
  - assert (Hq : (last - workday_date) / 86400 < 0)
      by (apply Z.div_lt_upper_bound; lia).
    set (q := (last - workday_date) / 86400) in *. clearbody q. lia.
Qed.

Lemma days_left_step (workday_date : Z) :
  workday_date + one_day <= max_datetime ->
  Z.to_nat ((max_datetime - workday_date) / one_day)
  = S (Z.to_nat ((max_datetime - (workday_date + one_day)) / one_day)).
Proof. apply days_left_step_upto. Qed.

Lemma days_left_none (workday_date : Z) :
  max_datetime < workday_date + one_day ->
  Z.to_nat ((max_datetime - workday_date) / one_day) = 0%nat.
Proof. apply days_left_none_upto. Qed.

(** In a week without a workday the search ends in [OverflowError]: the
    loop moves the date on until it leaves the range of [datetime], which
    takes one turn more than there are days left, and it is still running
    after any smaller number of turns. *)
Lemma next_workday_idle :
  complete schedule ->
  (forall nr, ~ working schedule nr) ->
  forall (fuel : nat) (weekdaynr workday_date : Z),
    next_workday fuel schedule weekdaynr workday_date
    = if (Z.to_nat ((max_datetime - workday_date) / one_day) <? fuel)%nat
      then OverflowError else Unfinished.
Proof.
  intros Hc Hnone.
  assert (Hidle : forall nr d, schedule_of schedule nr = Some d -> workday d = []).
  { intros nr d Hd. destruct (workday d) eqn:Hwd; [reflexivity|].
    exfalso. apply (Hnone nr). exists d. split; [exact Hd|congruence]. }
  induction fuel as [|fuel IH]; intros nr wd; cbn [next_workday].
  - destruct (schedule_of schedule nr) as [d|] eqn:Hd; [|now apply Hc in Hd].
    rewrite (Hidle nr d Hd).
    generalize (Z.to_nat ((max_datetime - wd) / one_day)). intros m.
    destruct m; reflexivity.
  - destruct (schedule_of schedule nr) as [d|] eqn:Hd; [|now apply Hc in Hd].
    rewrite (Hidle nr d Hd).
    destruct (Z.le_gt_cases (wd + one_day) max_datetime) as [Hin|Hout].
    + rewrite add_day_some by exact Hin. rewrite IH.
      rewrite (@days_left_step wd Hin).
      generalize (Z.to_nat ((max_datetime - (wd + one_day)) / one_day)).
      intros m. reflexivity.
    + rewrite add_day_none by exact Hout.
      rewrite (@days_left_none wd Hout). reflexivity.
Qed.

End WeekDays.

(** Each of the seven names is a key of [office_week] and of [idle_week]. *)
Lemma seven_days_complete (schedule : week) :
  lookup "monday" schedule <> None -> lookup "tuesday" schedule <> None ->
  lookup "wednesday" schedule <> None -> lookup "thursday" schedule <> None ->
  lookup "friday" schedule <> None -> lookup "saturday" schedule <> None ->
  lookup "sunday" schedule <> None ->
  complete schedule.
Proof.
  intros H0 H1 H2 H3 H4 H5 H6 nr. unfold schedule_of, get_week_day.
  pose proof (Z.mod_pos_bound nr 7 ltac:(lia)) as Hm.
  destruct (Z.eqb_spec (nr mod 7) 0); [exact H0|].
  destruct (Z.eqb_spec (nr mod 7) 1); [exact H1|].
  destruct (Z.eqb_spec (nr mod 7) 2); [exact H2|].
  destruct (Z.eqb_spec (nr mod 7) 3); [exact H3|].
  destruct (Z.eqb_spec (nr mod 7) 4); [exact H4|].
  destruct (Z.eqb_spec (nr mod 7) 5); [exact H5|].
  destruct (Z.eqb_spec (nr mod 7) 6); [exact H6|].
  lia.
Qed.

Lemma office_week_complete : complete office_week.
Proof. apply seven_days_complete; discriminate. Qed.

Lemma idle_week_complete : complete idle_week.
Proof. apply seven_days_complete; discriminate. Qed.

Lemma idle_week_never_working (nr : Z) : ~ working idle_week nr.
Proof.
  intros (d & Hd & Hne). apply Hne. clear Hne.
  unfold schedule_of, get_week_day in Hd.
  repeat match type of Hd with
         | context [if ?b then _ else _] => destruct b
         end; try discriminate; vm_compute in Hd; injection Hd as <-; reflexivity.
Qed.

(** From a Saturday (day 5) the search in [office_week] ends on the
    Monday, two days on; were that Saturday the 30th of December 9999
    (midnight 253402128000), the search would raise [OverflowError]. *)
Lemma next_workday_finds_first_witness :
  (exists (j : nat) d,
     (j <= 6)%nat
     /\ next_workday 6 office_week 5 172800 = Done d
     /\ schedule_of office_week (5 + Z.of_nat j) = Some d
     /\ workday d <> []
     /\ forall i : nat, (i < j)%nat -> ~ working office_week (5 + Z.of_nat i))
  /\ next_workday 6 office_week 5 253402128000 = OverflowError.
Proof.
  split; [|reflexivity].
  destruct (@next_workday_finds_first office_week 5 0 172800 6%nat)
    as (j & d & Hj & Hdone & _ & Hd & Hne & Hbefore).
  - exact office_week_complete.
  - exists office_day. split; [reflexivity|discriminate].
  - apply le_n.
  - exists j, d. split; [exact Hj|]. split.
    + apply Hdone. right. unfold one_day, max_datetime. lia.
    + split; [exact Hd|]. split; [exact Hne|exact Hbefore].
Defined.

(** ** [setup_workday] and [get_start_date_next_day] *)

Lemma midnight_next_day (now : Z) : midnight (now + one_day) = midnight now + one_day.
Proof.
  unfold midnight, one_day.
  replace (now + 86400) with (now + 1 * 86400) by lia.
  rewrite Z_mod_plus_full. lia.
Qed.


(** Induction over a list two elements at a time. *)
Lemma list_pair_ind (A : Type) (P : list A -> Prop) :
  P [] -> (forall a, P [a]) -> (forall a b l, P l -> P (a :: b :: l)) ->
  forall l, P l.
Proof.
  intros H0 H1 H2 l.
  assert (H : P l /\ forall a, P (a :: l)).
  { induction l as [|b l [IH1 IH2]]; [split; [exact H0|exact H1]|].
    split; [apply IH2|]. intros a. apply H2. exact IH1. }
  exact (proj1 H).
Qed.

Section SetupWorkday.
Variables (clock : string -> Z) (schedule : week).

(** The breaks passed over had all started, they are whole breaks unless
    nothing is left, and the first break left has not started. *)
Lemma skip_started_spec (now workday_date : Z) (breaks : list string) :
  exists dropped,
    breaks = dropped ++ skip_started clock now workday_date breaks
    /\ (Nat.Even (List.length dropped)
        \/ skip_started clock now workday_date breaks = [])
    /\ (forall k, (2 * k < List.length dropped)%nat ->
                  workday_date + clock (nth (2 * k) dropped EmptyString) <= now)
    /\ match skip_started clock now workday_date breaks with
       | b :: _ => now < workday_date + clock b
       | [] => True
       end.
Proof.
  induction breaks as [|a|a b l IH] using list_pair_ind.
  - exists []. split; [reflexivity|]. split; [now right|].
    split; [intros k Hk; cbn [List.length] in Hk; lia|exact I].
  - cbn [skip_started]. destruct (now <? workday_date + clock a) eqn:E.
    + exists []. split; [reflexivity|]. split; [left; exists O; reflexivity|].
      split; [intros k Hk; cbn [List.length] in Hk; lia|].
      apply Z.ltb_lt. exact E.
    + exists [a]. split; [reflexivity|]. split; [now right|].
      split; [|exact I]. intros k Hk. cbn [List.length] in Hk.
      assert (k = O) by lia. subst. change (2 * 0)%nat with 0%nat; cbn [nth]. apply Z.ltb_ge in E. lia.
  - cbn [skip_started]. destruct (now <? workday_date + clock a) eqn:E.
    + exists []. split; [reflexivity|]. split; [left; exists O; reflexivity|].
      split; [intros k Hk; cbn [List.length] in Hk; lia|].
      apply Z.ltb_lt. exact E.
    + destruct IH as (dropped & Heq & Heven & Hstarted & Hfirst).
      exists (a :: b :: dropped).
      split; [cbn [app]; rewrite <- Heq; reflexivity|].
      split.
      * destruct Heven as [[m Hm]|Hnil]; [left|now right].
        exists (S m). cbn [List.length]. lia.
      * split; [|exact Hfirst]. intros k Hk. destruct k as [|k].
        -- change (2 * 0)%nat with 0%nat; cbn [nth]. apply Z.ltb_ge in E. lia.
        -- replace (2 * S k)%nat with (S (S (2 * k))) by lia. cbn [nth].
           apply Hstarted. cbn [List.length] in Hk. lia.
Qed.

(** An even number of texts makes half as many breaks, each of its start
    and the end after it; an odd number raises [IndexError]. *)
Lemma pair_breaks_spec (workday_date : Z) (breaks : list string) :
  (Nat.Even (List.length breaks) ->
   exists breaklist,
     pair_breaks clock workday_date breaks = Done breaklist
     /\ List.length breaks = (2 * List.length breaklist)%nat
     /\ forall k, (k < List.length breaklist)%nat ->
          nth k breaklist (0, 0)
          = (workday_date + clock (nth (2 * k) breaks EmptyString),
             workday_date + clock (nth (2 * k + 1) breaks EmptyString)))
  /\ (Nat.Odd (List.length breaks) ->
      pair_breaks clock workday_date breaks = IndexError).
Proof.
  induction breaks as [|a|a b l [IHe IHo]] using list_pair_ind.
  - split.
    + intros _. exists []. split; [reflexivity|]. split; [reflexivity|].
      intros k Hk. simpl in Hk. lia.
    + intros [m Hm]. simpl in Hm. lia.
  - split.
    + intros [m Hm]. simpl in Hm. lia.
    + intros _. reflexivity.
  - split.
    + intros [m Hm]. simpl in Hm.
      destruct IHe as (bl & Hrun & Hlen & Hnth); [exists (m - 1)%nat; lia|].
      exists ((workday_date + clock a, workday_date + clock b) :: bl).
      split; [simpl; rewrite Hrun; reflexivity|].
      split; [simpl; lia|].
      intros k Hk. destruct k as [|k]; [reflexivity|].
      replace (2 * S k)%nat with (S (S (2 * k))) by lia.
      replace (S (S (2 * k)) + 1)%nat with (S (S (2 * k + 1))) by lia.
      cbn [nth]. apply Hnth. cbn [List.length] in Hk. lia.
    + intros [m Hm]. simpl in Hm. simpl.
      rewrite IHo; [reflexivity|]. exists (m - 1)%nat. lia.
Qed.

Lemma pair_breaks_first (workday_date : Z) (breaks : list string) breaklist :
  pair_breaks clock workday_date breaks = Done breaklist ->
  match breaklist, breaks with
  | b :: _, s :: _ => fst b = workday_date + clock s
  | [], [] => True
  | _, _ => False
  end.
Proof.
  destruct breaks as [|s [|e rest]]; simpl.
  - intros [= <-]. exact I.
  - discriminate.
  - destruct (pair_breaks clock workday_date rest); try discriminate.
    intros [= <-]. reflexivity.
Qed.

End SetupWorkday.

Section SetupWorkdayProperties.
Variables (fuel : nat) (clock : string -> Z) (schedule : week) (now : Z).

Lemma setup_workday_ok (w w' : Workday) :
  setup_workday fuel clock schedule now w = Done w' ->
  exists brs s e breaklist,
    prepare_breaks_and_start_end_time fuel schedule now = Done (brs, s, e)
    /\ pair_breaks clock (midnight now)
         (if midnight now + clock s <? now
          then skip_started clock now (midnight now) brs else brs)
       = Done breaklist
    /\ w' = mkWorkday
              (if midnight now + clock s <? now then now
               else midnight now + clock s)
              (midnight now + clock e)
              (start_work_dev w) (end_work_dev w)
              (start_break_dev w) (end_break_dev w)
              (Some breaklist)
              (min_interrupt_length w) (max_interrupt_length w)
              (time_btw_interrupts w) (time_btw_interrupts_dev w).
Proof.
  unfold setup_workday.
  destruct (prepare_breaks_and_start_end_time fuel schedule now)
    as [[[brs s] e]| | | |]; try discriminate.
  destruct (pair_breaks _ _ _) as [bl| | | |] eqn:Hp; try discriminate.
  intros [= <-]. exists brs, s, e, bl. repeat split. exact Hp.
Qed.

(** The workday that [setup_workday] sets up starts at the scheduled start
    or now, whichever is later, so never in the past, and ends at the
    scheduled end, both taken on today's date whichever day of the week
    the hours were found on. *)
Theorem setup_workday_start_not_past (w w' : Workday) :
  setup_workday fuel clock schedule now w = Done w' ->
  exists brs s e,
    prepare_breaks_and_start_end_time fuel schedule now = Done (brs, s, e)
    /\ start_time w' = Z.max now (midnight now + clock s)
    /\ end_time w' = midnight now + clock e
    /\ now <= start_time w'.
Proof.
  intros H. apply setup_workday_ok in H.
  destruct H as (brs & s & e & bl & Hprep & _ & ->).
  exists brs, s, e. split; [exact Hprep|]. cbn [start_time end_time].
  destruct (midnight now + clock s <? now) eqn:E.
  - apply Z.ltb_lt in E. repeat split; lia.
  - apply Z.ltb_ge in E. repeat split; lia.
Qed.

(** The breaks that [setup_workday] keeps are the scheduled ones from
    some break on.  Launched no later than the scheduled start it keeps
    them all; launched later it drops breaks that have started, and the
    first break it keeps has not started yet. *)
Theorem setup_workday_keeps_breaks_ahead (w w' : Workday) :
  setup_workday fuel clock schedule now w = Done w' ->
  exists brs s e dropped kept breaklist,
    prepare_breaks_and_start_end_time fuel schedule now = Done (brs, s, e)
    /\ brs = dropped ++ kept
    /\ breaks w' = Some breaklist
    /\ pair_breaks clock (midnight now) kept = Done breaklist
    /\ (now <= midnight now + clock s -> dropped = [])
    /\ (forall k, (2 * k < List.length dropped)%nat ->
          midnight now + clock (nth (2 * k) dropped EmptyString) <= now)
    /\ (midnight now + clock s < now ->
        match breaklist with
        | b :: _ => now < fst b
        | [] => True
        end).
Proof.
  intros H. apply setup_workday_ok in H.
  destruct H as (brs & s & e & bl & Hprep & Hpair & ->).
  destruct (midnight now + clock s <? now) eqn:E.
  - apply Z.ltb_lt in E.
    destruct (skip_started_spec clock now (midnight now) brs)
      as (dropped & Heq & _ & Hstarted & Hfirst).
    exists brs, s, e, dropped, (skip_started clock now (midnight now) brs), bl.
    split; [exact Hprep|]. split; [exact Heq|]. split; [reflexivity|].
    split; [exact Hpair|]. split; [lia|]. split; [exact Hstarted|].
    intros _. apply pair_breaks_first in Hpair.
    destruct bl as [|b bl]; [exact I|].
    destruct (skip_started clock now (midnight now) brs) as [|t rest];
      [contradiction|]. rewrite Hpair. exact Hfirst.
  - apply Z.ltb_ge in E.
    exists brs, s, e, [], brs, bl.
    split; [exact Hprep|]. split; [reflexivity|]. split; [reflexivity|].
    split; [exact Hpair|]. split; [reflexivity|].
    split; [intros k Hk; simpl in Hk; lia|]. lia.
Qed.

(** Launched no later than the scheduled start, [setup_workday] raises
    [IndexError] on an odd number of break texts, and on an even number it
    sets up half as many breaks. *)
Theorem setup_workday_unpaired_break (w : Workday) brs s e :
  prepare_breaks_and_start_end_time fuel schedule now = Done (brs, s, e) ->
  now <= midnight now + clock s ->
  (Nat.Odd (List.length brs) ->
   setup_workday fuel clock schedule now w = IndexError)
  /\ (Nat.Even (List.length brs) ->
      exists w' breaklist,
        setup_workday fuel clock schedule now w = Done w'
        /\ breaks w' = Some breaklist
        /\ List.length brs = (2 * List.length breaklist)%nat).
Proof.
  intros Hprep Hnow. unfold setup_workday. rewrite Hprep.
  apply Z.ltb_ge in Hnow. rewrite Hnow.
  destruct (pair_breaks_spec clock (midnight now) brs) as [Heven Hodd].
  split.
  - intros H. rewrite (Hodd H). reflexivity.
  - intros H. destruct (Heven H) as (bl & Hrun & Hlen & _).
    rewrite Hrun. eexists _, bl. split; [reflexivity|].
    split; [reflexivity|exact Hlen].
Qed.

(** In a week without a workday neither [setup_workday] nor
    [get_start_date_next_day] returns: the search moves its date on a day
    at a time until the date leaves the range of [datetime], and the call
    ends in [OverflowError].  That takes one turn of the loop more than
    there are days left before the end of the year 9999; cut off after
    fewer turns the loop is still running. *)
Theorem no_workday_ends_in_overflow (w : Workday) :
  complete schedule ->
  (forall nr, ~ working schedule nr) ->
  (forall w', setup_workday fuel clock schedule now w <> Done w')
  /\ (forall next_start,
        get_start_date_next_day fuel clock schedule now <> Done next_start)
  /\ ((Z.to_nat ((max_datetime - midnight now) / one_day) < fuel)%nat ->
      setup_workday fuel clock schedule now w = OverflowError
      /\ get_start_date_next_day fuel clock schedule now = OverflowError)
  /\ ((fuel <= Z.to_nat ((max_datetime - midnight (now + one_day)) / one_day))%nat ->
      setup_workday fuel clock schedule now w = Unfinished
      /\ get_start_date_next_day fuel clock schedule now = Unfinished).
Proof.
  intros Hc Hnone.
  unfold setup_workday, get_start_date_next_day,
    prepare_breaks_and_start_end_time.
  rewrite !(next_workday_idle Hc Hnone).
  assert (Hdays :
            (Z.to_nat ((max_datetime - midnight (now + one_day)) / one_day)
             <= Z.to_nat ((max_datetime - midnight now) / one_day))%nat).
  { rewrite midnight_next_day.
    assert (Hq : (max_datetime - (midnight now + one_day)) / one_day
                 <= (max_datetime - midnight now) / one_day)
      by (apply Z.div_le_mono; unfold one_day; lia).
    revert Hq.
    generalize ((max_datetime - (midnight now + one_day)) / one_day).
    generalize ((max_datetime - midnight now) / one_day).
    intros q q' Hq. lia. }
  set (m := Z.to_nat ((max_datetime - midnight now) / one_day)) in *.
  set (m' := Z.to_nat ((max_datetime - midnight (now + one_day)) / one_day)) in *.
  split; [|split; [|split]].
  - intros w'. destruct (m <? fuel)%nat; discriminate.
  - intros next_start. destruct (m' <? fuel)%nat; discriminate.
  - intros Hf.
    replace (m <? fuel)%nat with true by (symmetry; apply Nat.ltb_lt; lia).
    replace (m' <? fuel)%nat with true by (symmetry; apply Nat.ltb_lt; lia).
    split; reflexivity.
  - intros Hf.
    replace (m <? fuel)%nat with false by (symmetry; apply Nat.ltb_ge; lia).
    replace (m' <? fuel)%nat with false by (symmetry; apply Nat.ltb_ge; lia).
    split; reflexivity.
Qed.


End SetupWorkdayProperties.


(** Launched on a Thursday at 10:00, an hour after the scheduled start:
    the workday starts at 10:00 and ends at 17:00. *)
Lemma setup_workday_start_not_past_witness :
  let w := mkWorkday 0 0 5 5 5 5 None 10 15 120 30 in
  exists w',
    setup_workday 6 office_clock office_week 36000 w = Done w'
    /\ start_time w' = 36000 /\ end_time w' = 61200 /\ 36000 <= start_time w'.
Proof.
  intros w. eexists. split; [vm_compute; reflexivity|].
  destruct (@setup_workday_start_not_past 6 office_clock office_week 36000 w _ eq_refl)
    as (brs & s & e & Hprep & Hstart & Hend & Hnow).
  injection Hprep as <- <- <-.
  split; [exact Hstart|]. split; [exact Hend|exact Hnow].
Defined.

(** Launched on a Thursday at 13:30: the break of 12:00 is dropped and the
    break of 15:00 is kept. *)
Lemma setup_workday_keeps_breaks_ahead_witness :
  let w := mkWorkday 0 0 5 5 5 5 None 10 15 120 30 in
  exists w',
    setup_workday 6 office_clock office_week 48600 w = Done w'
    /\ breaks w' = Some [(54000, 54900)]
    /\ exists dropped kept,
         ["12:00"; "13:00"; "15:00"; "15:15"]%string = dropped ++ kept
         /\ pair_breaks office_clock 0 kept = Done [(54000, 54900)].
Proof.
  intros w. eexists. split; [vm_compute; reflexivity|]. split; [reflexivity|].
  destruct (@setup_workday_keeps_breaks_ahead 6 office_clock office_week 48600 w _ eq_refl)
    as (brs & s & e & dropped & kept & bl & Hprep & Heq & Hbl & Hpair & _).
  injection Hprep as <- <- <-. injection Hbl as <-.
  exists dropped, kept. split; [exact Heq|exact Hpair].
Defined.

(** A Thursday with the single break text "12:00", set up at 1:00. *)
Lemma setup_workday_unpaired_break_witness :
  let w := mkWorkday 0 0 5 5 5 5 None 10 15 120 30 in
  let schedule := [("thursday", mkDay ["09:00"; "17:00"] ["12:00"])]%string in
  setup_workday 6 office_clock schedule 3600 w = IndexError.
Proof.
  intros w schedule.
  destruct (@setup_workday_unpaired_break 6 office_clock schedule 3600 w
              ["12:00"%string] "09:00"%string "17:00"%string eq_refl)
    as [Hodd _].
  - vm_compute. discriminate.
  - apply Hodd. exists O. reflexivity.
Defined.

(** The 29th of December 9999 at 10:00 (instant 253402077600) in a week
    without a workday: two days can still be added to the date, and the
    third turn of the loop raises [OverflowError]. *)
Lemma no_workday_ends_in_overflow_witness :
  let w := mkWorkday 0 0 5 5 5 5 None 10 15 120 30 in
  setup_workday 6 office_clock idle_week 253402077600 w = OverflowError
  /\ get_start_date_next_day 6 office_clock idle_week 253402077600
     = OverflowError
  /\ setup_workday 2 office_clock idle_week 253402077600 w = Unfinished.
Proof.
  intros w.
  destruct (@no_workday_ends_in_overflow 6 office_clock idle_week 253402077600 w
              idle_week_complete idle_week_never_working)
    as (_ & _ & Hover & _).
  destruct Hover as [H1 H2]; [vm_compute; lia|].
  split; [exact H1|]. split; [exact H2|]. reflexivity.
Defined.


(** * More on the time controller *)

(** ** The cron table *)

Lemma remove_all_app (cmt : string) (t1 t2 : list job) :
  remove_all cmt (t1 ++ t2) = remove_all cmt t1 ++ remove_all cmt t2.
Proof. apply filter_app. Qed.

Lemma remove_all_twice (cmt : string) (tab : list job) :
  remove_all cmt (remove_all cmt tab) = remove_all cmt tab.
Proof.
  unfold remove_all. induction tab as [|j tab IH]; [reflexivity|].
  simpl. destruct (negb (comment j =? cmt)%string) eqn:E; [|exact IH].
  simpl. rewrite E, IH. reflexivity.
Qed.

(** After [__schedule_next_execution] the cron table holds one job of the
    crawler, the one for [next_start], however many it held before; the
    jobs with another comment are kept as they were; and scheduling again
    replaces the job instead of adding one. *)
Theorem next_execution_is_the_only_one (next_start again : Z) (tab : list job) :
  filter (fun j => String.eqb (comment j) "crawler_execution")
         (schedule_next_execution next_start tab)
  = [mkJob "crawler_execution" next_start]
  /\ filter (fun j => negb (String.eqb (comment j) "crawler_execution"))
            (schedule_next_execution next_start tab)
     = filter (fun j => negb (String.eqb (comment j) "crawler_execution")) tab
  /\ schedule_next_execution again (schedule_next_execution next_start tab)
     = schedule_next_execution again tab.
Proof.
  unfold schedule_next_execution. split; [|split].
  - rewrite filter_app. simpl.
    replace (filter _ (remove_all _ tab)) with (@nil job); [reflexivity|].
    unfold remove_all. induction tab as [|j tab IH]; [reflexivity|].
    simpl. destruct (comment j =? "crawler_execution")%string eqn:E; simpl;
      [exact IH|]. rewrite E. exact IH.
  - rewrite filter_app. simpl. rewrite app_nil_r.
    apply (remove_all_twice "crawler_execution" tab).
  - rewrite remove_all_app. simpl. rewrite app_nil_r, remove_all_twice.
    reflexivity.
Qed.

(** ** The deviated start and end of the day *)

(** The start and the end that [__generate_schedule] sets lie within the
    configured deviations of the configured start and end.  So the day is
    not over before the configured end less the deviation, and it is over
    from the configured end plus the deviation on. *)
Theorem day_within_deviations
  fuel w now next_start tab c oracle n sch n' :
  generate_schedule fuel w now next_start tab c oracle n = Ok sch n' ->
  exists s e,
    ctl_start_time (ctl sch) = Some s
    /\ end_crawling_time (ctl sch) = Some e
    /\ - (60 * start_work_dev w) <= s - start_time w <= 60 * start_work_dev w
    /\ - (60 * end_work_dev w) <= e - end_time w <= 60 * end_work_dev w
    /\ (forall t, t < end_time w - 60 * end_work_dev w ->
                  check_end_time t (ctl sch) = Some false)
    /\ (forall t, end_time w + 60 * end_work_dev w <= t ->
                  check_end_time t (ctl sch) = Some true).
Proof.
  intros H. apply generate_schedule_ok in H.
  destruct H as (dev_end & dev_start & new & r & n1 & He & Hs & _ & _ & ->).
  exists (start_time w + dev_start), (end_time w + dev_end).
  cbn [ctl ctl_start_time end_crawling_time]. unfold check_end_time.
  cbn [end_crawling_time].
  split; [reflexivity|]. split; [reflexivity|]. split; [lia|]. split; [lia|].
  split; intros t Ht; f_equal; [apply Z.leb_gt|apply Z.leb_le]; lia.
Qed.

Lemma day_within_deviations_witness :
  let w := mkWorkday 32400 61200 10 20 0 0 None 10 15 120 0 in
  exists sch n',
    generate_schedule 10 w 28800 118800 [] init (fun k => Z.of_nat (7 * k)) 0%nat
      = Ok sch n'
    /\ check_end_time 59999 (ctl sch) = Some false
    /\ check_end_time 62400 (ctl sch) = Some true.
Proof.
  intros w. eexists _, _. split; [vm_compute; reflexivity|].
  destruct (@day_within_deviations
              10 w 28800 118800 [] init (fun k => Z.of_nat (7 * k)) 0%nat _ _ eq_refl)
    as (s & e & _ & _ & _ & _ & Hbefore & Hafter).
  split; [apply Hbefore; simpl; lia | apply Hafter; simpl; lia].
Defined.

(** ** The end of the day and the time left *)

Lemma polls_keep_end_time (ts : list Z) :
  forall c, end_crawling_time (snd (polls ts c)) = end_crawling_time c.
Proof.
  induction ts as [|t ts IH]; intros c; [reflexivity|].
  cbn [polls].
  destruct (check_break_interrupt t c) as [d c'] eqn:E.
  specialize (IH c'). destruct (polls ts c') as [ds c'']. simpl in *.
  rewrite IH. unfold check_break_interrupt in E.
  destruct (break_queue c) as [|b rest];
    [|destruct (fst b <=? t); [injection E as _ <-; reflexivity|]];
    (destruct (Deque.peek (interrupt_queue c)) as [i|];
     [destruct (fst i <=? t)|]; injection E as _ <-; reflexivity).
Qed.

(** [check_end_time] says that the day is over exactly when [get_ETA] has
    no time left, and once the day is over it stays over, at any later
    clock reading and however often the schedule has been polled. *)
Theorem end_of_day_is_final (now later : Z) (ts : list Z) (c : controller) :
  (check_end_time now c = Some true
   <-> exists eta, get_ETA now c = Some eta /\ eta <= 0)
  /\ (check_end_time now c = Some true -> now <= later ->
      check_end_time later (snd (polls ts c)) = Some true).
Proof.
  unfold check_end_time, get_ETA. rewrite polls_keep_end_time.
  destruct (end_crawling_time c) as [e|]; split.
  - split.
    + intros [= H]. apply Z.leb_le in H. exists (e - now). split; [reflexivity|lia].
    + intros (eta & [= <-] & H). f_equal. apply Z.leb_le. lia.
  - intros [= H] Hl. apply Z.leb_le in H. f_equal. apply Z.leb_le. lia.
  - split; [discriminate|]. intros (eta & H & _). discriminate.
  - discriminate.
Qed.

Lemma end_of_day_is_final_witness :
  let c := mkController [(900, 60)] [(700, 120)] (Some 1000) (Some 0) in
  check_end_time 1500 (snd (polls [1100; 1200] c)) = Some true.
Proof.
  intros c.
  destruct (end_of_day_is_final 1000 1500 [1100; 1200] c) as [_ H].
  apply H; [reflexivity|lia].
Defined.

(** ** The lengths of the interruptions and of the breaks *)

Section InterruptLengths.
Variable w : Workday.

Lemma fill_gap_lengths fuel br :
  forall calculate_time iq oracle n r n',
    Forall (of_configured_length w) iq ->
    fill_gap fuel w br calculate_time iq oracle n = Ok r n' ->
    Forall (of_configured_length w) (snd r).
Proof.
  induction fuel as [|fuel IH]; intros calc iq oracle n r n' Hiq H.
  - simpl in H. destruct (calc <? fst br); [discriminate|].
    injection H as <- <-. exact Hiq.
  - simpl in H. destruct (calc <? fst br).
    + bind_inv H. bind_inv H. apply randint_ok in Hrun0 as [Hd _].
      destruct (calc + a + a0 <? fst br - 600).
      * eapply IH; [|exact H]. constructor; [exact Hd|exact Hiq].
      * eapply IH; [exact Hiq|exact H].
    + injection H as <- <-. exact Hiq.
Qed.

Lemma plan_interrupts_lengths fuel :
  forall break_list calculate_time iq oracle n r n',
    Forall (of_configured_length w) iq ->
    plan_interrupts fuel w break_list calculate_time iq oracle n = Ok r n' ->
    Forall (of_configured_length w) (snd r).
Proof.
  induction break_list as [|br rest IH]; intros calc iq oracle n r n' Hiq H.
  - injection H as <- <-. exact Hiq.
  - simpl in H. destruct (fst br <=? calc).
    + eapply IH; [exact Hiq|exact H].
    + bind_inv H. eapply IH; [|exact H].
      eapply fill_gap_lengths; [exact Hiq|exact Hrun].
Qed.

End InterruptLengths.

(** Every interruption that [__generate_schedule] queues has a length
    between the configured minimum and maximum. *)
Theorem interrupts_of_configured_length
  fuel w now next_start tab oracle n sch n' :
  generate_schedule fuel w now next_start tab init oracle n = Ok sch n' ->
  Forall (fun i => min_interrupt_length w * 60 <= snd i
                   <= max_interrupt_length w * 60)
         (interrupt_queue (ctl sch)).
Proof.
  intros H. apply generate_schedule_ok in H.
  destruct H as (dev_end & dev_start & new & r & n1 & _ & _ & _ & Hplan & ->).
  cbn [ctl interrupt_queue].
  eapply plan_interrupts_lengths in Hplan; [exact Hplan|constructor].
Qed.

Lemma interrupts_of_configured_length_witness :
  let w := mkWorkday 32400 61200 0 0 0 0 (Some [(43200, 46800)]) 10 15 120 0 in
  exists sch n',
    generate_schedule 10 w 28800 118800 [] init (fun k => Z.of_nat k) 0%nat
      = Ok sch n'
    /\ Forall (fun i => 600 <= snd i <= 900) (interrupt_queue (ctl sch)).
Proof.
  intros w. eexists _, _. split; [vm_compute; reflexivity|].
  exact (@interrupts_of_configured_length
           10 w 28800 118800 [] (fun k => Z.of_nat k) 0%nat _ _ eq_refl).
Defined.

(** Each configured break is queued with a duration that differs from its
    configured length by no more than the two break deviations together, so
    with a duration that is not negative when no configured break is
    shorter than that. *)
Theorem break_durations_within_deviations
  fuel w now next_start tab oracle n sch n' :
  generate_schedule fuel w now next_start tab init oracle n = Ok sch n' ->
  exists lead new,
    break_queue (ctl sch) = lead ++ new
    /\ (List.length lead <= 1)%nat
    /\ Forall2 (fun b e =>
                  - (60 * (start_break_dev w + end_break_dev w))
                  <= snd e - (snd b - fst b)
                  <= 60 * (start_break_dev w + end_break_dev w))
               (configured_breaks w) new
    /\ (breaks_outlast_deviations w ->
        Forall (fun e => 0 <= snd e) (break_queue (ctl sch))).
Proof.
  intros H. apply generate_schedule_ok in H.
  destruct H as (dev_end & dev_start & new & r & n1 & _ & _ & Hdev & _ & ->).
  cbn [ctl break_queue init app].
  exists (if 0 <? start_time w + dev_start - now
          then [(now, start_time w + dev_start - now)] else []), new.
  split; [reflexivity|]. split; [destruct (0 <? _); simpl; lia|]. split.
  - eapply Forall2_impl; [|exact Hdev]. unfold deviated. intros b e Hd. lia.
  - intros Hout. apply Forall_app. split.
    + destruct (0 <? start_time w + dev_start - now) eqn:E; [|constructor].
      apply Z.ltb_lt in E. repeat constructor. simpl. lia.
    + unfold breaks_outlast_deviations in Hout.
      clear - Hdev Hout. induction Hdev as [|b e brs new Hd _ IH]; [constructor|].
      inversion Hout; subst. constructor; [|apply IH; assumption].
      unfold deviated in Hd. lia.
Qed.

Lemma break_durations_within_deviations_witness :
  let w := mkWorkday 32400 61200 0 0 5 5
             (Some [(43200, 46800); (50400, 52200)]) 10 15 120 0 in
  exists sch n',
    generate_schedule 10 w 28800 118800 [] init (fun k => Z.of_nat (50 * k)) 0%nat
      = Ok sch n'
    /\ Forall (fun e => 0 <= snd e) (break_queue (ctl sch)).
Proof.
  intros w. eexists _, _. split; [vm_compute; reflexivity|].
  destruct (@break_durations_within_deviations
              10 w 28800 118800 [] (fun k => Z.of_nat (50 * k)) 0%nat _ _ eq_refl)
    as (lead & new & _ & _ & _ & Hpos).
  apply Hpos. unfold breaks_outlast_deviations. simpl.
  repeat constructor; simpl; lia.
Defined.

(** ** A schedule that is never finished *)

Lemma fill_gap_stuck (w : Workday) (br : entry) :
  time_btw_interrupts w = 0 -> time_btw_interrupts_dev w = 0 ->
  min_interrupt_length w = 0 -> max_interrupt_length w = 0 ->
  forall fuel calculate_time iq oracle n,
    calculate_time < fst br - 600 ->
    fill_gap fuel w br calculate_time iq oracle n = OutOfFuel.
Proof.
  intros Hi Hd Hmin Hmax.
  induction fuel as [|fuel IH]; intros calc iq oracle n Hc; simpl.
  - replace (calc <? fst br) with true by (symmetry; apply Z.ltb_lt; lia).
    reflexivity.
  - replace (calc <? fst br) with true by (symmetry; apply Z.ltb_lt; lia).
    rewrite Hi, Hd, Hmin, Hmax.
    unfold bind at 1. rewrite randint_returns by lia.
    unfold bind at 1. rewrite randint_returns by lia.
    cbn [Z.sub Z.add Z.mul Z.opp]. rewrite !Z.mod_1_r.
    replace (calc + 0 + 0) with calc by lia.
    replace (calc <? fst br - 600) with true by (symmetry; apply Z.ltb_lt; lia).
    apply IH. exact Hc.
Qed.

(** With the interval between interruptions, its deviation and both
    interruption lengths set to 0, [__generate_schedule] never finishes on
    a day without deviations and without breaks that has begun and has more
    than ten minutes left: it queues one interruption of no length after
    the other at the same instant. *)
Theorem zero_interval_never_scheduled
  fuel w now next_start tab oracle n :
  time_btw_interrupts w = 0 -> time_btw_interrupts_dev w = 0 ->
  min_interrupt_length w = 0 -> max_interrupt_length w = 0 ->
  start_work_dev w = 0 -> end_work_dev w = 0 ->
  configured_breaks w = [] ->
  start_time w <= now -> now + 600 < end_time w ->
  generate_schedule fuel w now next_start tab init oracle n = OutOfFuel.
Proof.
  intros Hi Hd Hmin Hmax Hsd Hed Hbr Hstart Hend.
  unfold generate_schedule. rewrite Hsd, Hed.
  unfold bind at 1. rewrite randint_returns by lia.
  unfold bind at 1. rewrite randint_returns by lia.
  cbn [Z.sub Z.add Z.mul Z.opp]. rewrite !Z.mod_1_r.
  replace (0 <? start_time w - now + 0) with false
    by (symmetry; apply Z.ltb_ge; lia).
  assert (Hput : forall m,
             match breaks w with
             | Some brs => put_breaks w brs (break_queue init)
             | None => ret (break_queue init)
             end oracle m = Ok [] m).
  { intros m. unfold configured_breaks in Hbr.
    destruct (breaks w) as [brs|]; [subst brs|]; reflexivity. }
  unfold bind at 1. rewrite Hput.
  unfold boundaries. cbn [app plan_interrupts fst snd].
  replace (end_time w + 0 <=? now) with false
    by (symmetry; apply Z.leb_gt; lia).
  unfold bind.
  rewrite (@fill_gap_stuck w (end_time w + 0, 1) Hi Hd Hmin Hmax);
    [reflexivity|]. simpl. lia.
Qed.

Lemma zero_interval_never_scheduled_witness :
  let w := mkWorkday 32400 61200 0 0 0 0 None 0 0 0 0 in
  generate_schedule 1000 w 36000 118800 [] init (fun k => Z.of_nat k) 0%nat
  = OutOfFuel.
Proof.
  intros w. apply zero_interval_never_scheduled; try reflexivity; simpl; lia.
Defined.

(** ** The wait for the start of the day *)

(** When the deviated start of the day lies ahead as the schedule is built,
    the break at the front of the break queue lasts from that moment to the
    start, and the poll that [start_crawling] makes after its status report
    returns just that wait, whenever it is made, and takes it off the
    queue. *)
Theorem start_crawling_waits_for_start
  fuel w now next_start tab oracle n sch n' s reported later :
  generate_schedule fuel w now next_start tab init oracle n = Ok sch n' ->
  ctl_start_time (ctl sch) = Some s ->
  now < s ->
  now <= later ->
  exists rest,
    break_queue (ctl sch) = (now, s - now) :: rest
    /\ fst (start_crawling_poll w reported later (ctl sch)) = s - now
    /\ break_queue (snd (start_crawling_poll w reported later (ctl sch))) = rest.
Proof.
  intros H Hs Hahead Hlater. apply generate_schedule_ok in H.
  destruct H as (dev_end & dev_start & new & r & n1 & _ & _ & _ & _ & ->).
  cbn [ctl ctl_start_time break_queue init app] in *. injection Hs as <-.
  replace (0 <? start_time w + dev_start - now) with true
    by (symmetry; apply Z.ltb_lt; lia).
  exists new. split; [reflexivity|].
  unfold start_crawling_poll.
  match goal with |- context [generate_cli_status w reported ?c] =>
    pose proof (generate_cli_status_queues w reported c) as [Hbq _];
    set (c1 := snd (generate_cli_status w reported c)) in *
  end.
  cbn [break_queue app] in Hbq.
  unfold check_break_interrupt. rewrite Hbq. cbn [fst snd].
  replace (now <=? later) with true by (symmetry; apply Z.leb_le; lia).
  split; reflexivity.
Qed.

(** Built at 8:00 for a day that starts at 9:00: the poll of
    [start_crawling], made a minute later, returns the hour to wait. *)
Lemma start_crawling_waits_for_start_witness :
  let w := mkWorkday 32400 61200 0 0 0 0 (Some [(43200, 46800)]) 10 15 120 0 in
  exists sch n',
    generate_schedule 10 w 28800 118800 [] init (fun k => Z.of_nat k) 0%nat
      = Ok sch n'
    /\ fst (start_crawling_poll w 28860 28860 (ctl sch)) = 3600.
Proof.
  intros w. eexists _, _. split; [vm_compute; reflexivity|].
  destruct (@start_crawling_waits_for_start
              10 w 28800 118800 [] (fun k => Z.of_nat k) 0%nat _ _
              32400 28860 28860 eq_refl eq_refl)
    as (rest & _ & Hpoll & _); [lia|lia|].
  exact Hpoll.
Defined.

(** ** Interruptions added while the crawler runs *)

Lemma poll_returns_added (t d later : Z) (c : controller) :
  t <= later -> break_due later c = false ->
  check_break_interrupt later
    (set_interrupt_queue c (interrupt_queue c ++ [(t, d)])) = (d, c).
Proof.
  intros Ht Hb.
  rewrite check_no_break_due by exact Hb.
  cbn [set_interrupt_queue interrupt_queue].
  rewrite (@peek_app_last entry), (@pop_rest_app_last entry). cbn [fst snd].
  replace (t <=? later) with true by (symmetry; apply Z.leb_le; lia).
  destruct c; reflexivity.
Qed.

(** Two interruptions added one after the other, each with a duration of at
    least 0, are returned in the opposite order by two polls that are made
    with no break due and at an instant that neither stamp exceeds, the
    stamp of an entry being the host's wall clock read in the controller's
    zone; they are returned ahead of whatever was queued, and the
    controller is then as it was before they were added. *)
Theorem added_interrupts_last_in_first_out
  (host_offset zone_offset t1 t2 d1 d2 later : Z) (c : controller) :
  0 <= d1 -> 0 <= d2 ->
  localize_now host_offset zone_offset t1 <= later ->
  localize_now host_offset zone_offset t2 <= later ->
  break_due later c = false ->
  polls [later; later]
        (snd (_add_interrupt host_offset zone_offset t2 d2
                (snd (_add_interrupt host_offset zone_offset t1 d1 c))))
  = ([d2; d1], c).
Proof.
  intros Hd1 Hd2 Ht1 Ht2 Hb.
  rewrite (add_interrupt_pushes host_offset zone_offset t1 c Hd1). cbn [snd].
  rewrite add_interrupt_pushes by exact Hd2. cbn [snd polls].
  set (s1 := localize_now host_offset zone_offset t1) in *.
  set (s2 := localize_now host_offset zone_offset t2) in *.
  set (c1 := set_interrupt_queue c (interrupt_queue c ++ [(s1, d1)])).
  rewrite (@poll_returns_added s2 d2 later c1 Ht2 Hb).
  subst c1. rewrite (@poll_returns_added s1 d1 later c Ht1 Hb).
  reflexivity.
Qed.

(** A host on UTC and a controller one hour ahead: the stamps are an hour
    behind the instants 500 and 510 of the two calls, and the polls at 520
    return the two interruptions, the later one first. *)
Lemma added_interrupts_last_in_first_out_witness :
  let c := mkController [(900, 60)] [(700, 120); (400, 90)] (Some 1000) (Some 0) in
  polls [520; 520]
    (snd (_add_interrupt 0 3600 510 30 (snd (_add_interrupt 0 3600 500 300 c))))
  = ([30; 300], c).
Proof.
  intros c. apply added_interrupts_last_in_first_out;
    try (unfold localize_now; lia). reflexivity.
Defined.

(** ** Two status reports *)

(** A status report leaves the break queue alone and keeps the entries of
    the interruption deque, and a second report undoes what the first did
    to their order: after two reports the controller is as it was. *)
Theorem two_reports_restore_the_deque (w : Workday) (t1 t2 : Z) (c : controller) :
  snd (generate_cli_status w t2 (snd (generate_cli_status w t1 c))) = c
  /\ break_queue (snd (generate_cli_status w t1 c)) = break_queue c
  /\ forall i, In i (interrupt_queue (snd (generate_cli_status w t1 c)))
               <-> In i (interrupt_queue c).
Proof.
  split; [|split].
  - unfold generate_cli_status, get_break_schedule, get_interrupt_schedule,
      set_interrupt_queue, Deque.reverse.
    destruct c as [bq iq e st]. cbn [end_crawling_time break_queue interrupt_queue
                                    ctl_start_time].
    destruct e as [e|]; cbn [snd end_crawling_time break_queue interrupt_queue
                                 ctl_start_time];
      rewrite rev_involutive; reflexivity.
  - apply generate_cli_status_queues.
  - intros i. destruct (generate_cli_status_queues w t1 c) as [_ ->].
    symmetry. apply in_rev.
Qed.

(** * More on the control signals *)

(** ** The command line *)

(** No word that [CLI.execute_command] hands to a command class is unknown
    to that class, so the dispatch raises no [KeyError]; a word that is no
    command changes nothing and leaves the command line open; and of all
    words "terminate" alone closes it. *)
Theorem command_line_dispatch (word : string) (s : signals) :
  match command_list word with
  | Some handler => exists s', handler word s = Some s'
  | None => execute_command word s = (true, s)
  end
  /\ fst (execute_command word s) = negb (String.eqb word "terminate").
Proof.
  split; [|unfold execute_command;
           destruct (command_list word) as [h|]; [destruct (h word s)|];
           reflexivity].
  unfold execute_command, command_list.
  destruct (String.eqb_spec word "pause") as [->|_]; [eexists; reflexivity|].
  destruct (String.eqb_spec word "terminate") as [->|Ht]; [eexists; reflexivity|].
  destruct (String.eqb_spec word "resume") as [->|_]; [eexists; reflexivity|].
  destruct (String.eqb_spec word "solved") as [->|_]; [eexists; reflexivity|].
  reflexivity.
Qed.

Lemma step_command (word : string) (x x' : system) :
  step (Command word) x = Some x' ->
  cli_on x = true
  /\ x' = mkSystem (snd (execute_command word (sig x))) (at_loc x)
                   (fst (execute_command word (sig x))).
Proof.
  unfold step. intros H.
  assert (H' : (if cli_on x
                then let (on, s) := execute_command word (sig x) in
                     Some (mkSystem s (at_loc x) on)
                else None) = Some x') by (destruct (at_loc x); exact H).
  destruct (cli_on x); [|discriminate].
  destruct (execute_command word (sig x)) as [on s].
  injection H' as <-. split; reflexivity.
Qed.

(** What a step of the crawler itself does to the two events and to the
    command line: nothing. *)
Lemma step_crawler_keeps_events (e : event) (x x' : system) :
  (forall word, e <> Command word) ->
  step e x = Some x' ->
  pause_event (sig x') = pause_event (sig x)
  /\ terminate_event (sig x') = terminate_event (sig x)
  /\ cli_on x' = cli_on x.
Proof.
  intros He H. unfold step in H.
  destruct e as [word|t| | | |d| |stop|status| ].
  - exfalso. apply (He word). reflexivity.
  - destruct (at_loc x); try discriminate. injection H as <-.
    unfold solve_captcha. destruct (is_honeypot t); repeat split.
  - destruct (at_loc x); try discriminate. injection H as <-. repeat split.
  - destruct (at_loc x); try discriminate;
      match type of H with (if ?b then _ else _) = _ => destruct b end;
      try discriminate; injection H as <-; repeat split.
  - destruct (at_loc x); try discriminate; injection H as <-; repeat split.
  - destruct (at_loc x); try discriminate.
    destruct (0 <? d); injection H as <-; repeat split.
  - destruct (at_loc x); try discriminate;
      match type of H with (if ?b then _ else _) = _ => destruct b eqn:Eb end;
      injection H as <-; repeat split; simpl; congruence.
  - destruct (at_loc x); try discriminate.
    destruct stop; injection H as <-; repeat split.
  - destruct (at_loc x); try discriminate. injection H as <-. repeat split.
  - destruct (at_loc x); try discriminate; injection H as <-; repeat split.
Qed.

(** The terminate event, once set, stays set.  And once the command line
    has read "terminate" it reads no more: whatever happens afterwards, the
    pause event and the terminate event keep the values they have. *)
Theorem terminate_is_final (es : list event) (x x' : system) :
  steps es x = Some x' ->
  (terminate_event (sig x) = true -> terminate_event (sig x') = true)
  /\ (cli_on x = false ->
      cli_on x' = false
      /\ pause_event (sig x') = pause_event (sig x)
      /\ terminate_event (sig x') = terminate_event (sig x)
      /\ forall word, step (Command word) x' = None).
Proof.
  revert x. induction es as [|e es IH]; intros x H.
  - injection H as <-. split; [auto|]. intros Hoff.
    split; [exact Hoff|]. split; [reflexivity|]. split; [reflexivity|].
    intros word. unfold step. rewrite Hoff.
    destruct (at_loc x); reflexivity.
  - simpl in H. destruct (step e x) as [x1|] eqn:E; [|discriminate].
    destruct (IH x1 H) as [IHt IHoff].
    assert (Hcases : (exists word, e = Command word)
                     \/ forall word, e <> Command word).
    { destruct e; try (right; intros word; discriminate).
      left. eexists. reflexivity. }
    destruct Hcases as [[word ->]|Hcrawl].
    + apply step_command in E. destruct E as (Hon & ->). split.
      * intros Ht. apply IHt. cbn [sig].
        rewrite execute_command_terminate_event, Ht. apply orb_true_r.
      * intros Hoff. congruence.
    + destruct (@step_crawler_keeps_events e x x1 Hcrawl E) as (Hp & Ht & Hc).
      split.
      * intros Hset. apply IHt. congruence.
      * intros Hoff. destruct IHoff as (H1 & H2 & H3 & H4); [congruence|].
        split; [exact H1|]. split; [congruence|]. split; [congruence|exact H4].
Qed.

(** The operator types "terminate" and then "pause" while the crawler
    sleeps in the pause poll: the second word is not read. *)
Lemma terminate_is_final_witness :
  let x := mkSystem (mkSignals false false [] []) PauseSleep true in
  steps [Command "terminate"; Crawl] x
    = Some (mkSystem (mkSignals false true [] []) Exited false)
  /\ forall x', steps [Command "terminate"] x = Some x' ->
                step (Command "pause") x' = None.
Proof.
  intros x. split; [reflexivity|]. intros x' H.
  injection H as <-.
  set (x1 := mkSystem (mkSignals false true [] []) PauseSleep false).
  destruct (@terminate_is_final [] x1 x1 eq_refl) as [_ Hoff].
  destruct Hoff as (_ & _ & _ & Hnone); [reflexivity|]. apply Hnone.
Defined.

Lemma terminate_event_stays_set (es : list event) :
  forall x x',
    terminate_event (sig x) = true -> steps es x = Some x' ->
    terminate_event (sig x') = true.
Proof.
  induction es as [|e es IH]; intros x x' Ht H.
  - injection H as <-. exact Ht.
  - simpl in H. destruct (step e x) as [x1|] eqn:E; [|discriminate].
    apply (IH x1 x'); [|exact H].
    destruct e as [word|t| | | |d| |stop|status| ];
      try (match type of E with
           | step ?ev _ = _ =>
               assert (Hc : forall word', ev <> Command word')
                 by (intros word'; discriminate);
               destruct (@step_crawler_keeps_events ev x x1 Hc E)
                 as (_ & Hk & _); congruence
           end).
    apply step_command in E. destruct E as (_ & ->). cbn [sig].
    rewrite execute_command_terminate_event, Ht. apply orb_true_r.
Qed.

(** ** Waking the crawler *)

(** "resume" wakes the crawler only while it waits.  Typed before the
    crawler starts to wait it changes nothing and is forgotten: the wait
    that follows ends with its timeout, not before.  Typed during the wait
    it lets the crawler go on at once. *)
Theorem resume_wakes_only_a_waiter (x : system) :
  cli_on x = true ->
  (resume_condition (sig x) = [] -> resume (sig x) = sig x)
  /\ (at_loc x = NextPage -> resume_condition (sig x) = [] ->
      steps [Command "resume"; PageParsed; Woken] x = None
      /\ steps [Command "resume"; PageParsed; TimedOut] x
         = Some (mkSystem (sig x) Interact true))
  /\ (at_loc x = ReadWait -> resume_condition (sig x) = [Crawler] ->
      steps [Command "resume"; Woken] x
      = Some (mkSystem (mkSignals (pause_event (sig x)) (terminate_event (sig x))
                                  [] (solved_condition (sig x)))
                       Interact true)).
Proof.
  intros Hon. destruct x as [[p t rc sc] l on]. cbn [sig at_loc cli_on] in *.
  subst on. cbn [resume_condition]. split; [|split].
  - intros ->. reflexivity.
  - intros -> ->. split; reflexivity.
  - intros -> ->. reflexivity.
Qed.

Lemma resume_wakes_only_a_waiter_witness :
  let x := mkSystem (mkSignals false false [] []) NextPage true in
  steps [Command "resume"; PageParsed; Woken] x = None
  /\ steps [Command "resume"; PageParsed; TimedOut] x
     = Some (mkSystem (mkSignals false false [] []) Interact true)
  /\ steps [PageParsed; Command "resume"; Woken] x
     = Some (mkSystem (mkSignals false false [] []) Interact true).
Proof.
  intros x.
  destruct (resume_wakes_only_a_waiter x eq_refl) as (_ & Hlost & _).
  destruct (Hlost eq_refl eq_refl) as [H1 H2].
  split; [exact H1|]. split; [exact H2|].
  destruct (resume_wakes_only_a_waiter
              (mkSystem (mkSignals false false [Crawler] []) ReadWait true) eq_refl)
    as (_ & _ & Hwake).
  exact (Hwake eq_refl eq_refl).
Defined.

(** ** Where "terminate" takes effect *)

(** With the terminate event set, the crawler exits at the tests that
    follow the schedule poll, paused or not; while it waits out a reading
    delay or a break it does not, and only the timeout or a "resume" ends
    that wait. *)
Theorem terminate_polled_at_tests (x : system) :
  terminate_event (sig x) = true ->
  (at_loc x = PauseTest -> steps [Crawl; Crawl] x = Some (goto x Exited))
  /\ (at_loc x = TerminateTest -> step Crawl x = Some (goto x Exited))
  /\ (at_loc x = ReadWait \/ at_loc x = BreakWait ->
      waiting Crawler (resume_condition (sig x)) = true ->
      step Woken x = None /\ step Crawl x = None
      /\ exists x', step TimedOut x = Some x'
                    /\ (at_loc x' = Interact \/ at_loc x' = PauseTest)).
Proof.
  intros Ht. destruct x as [[p t rc sc] l on]. cbn [sig terminate_event] in Ht.
  subst t. cbn [sig at_loc resume_condition]. split; [|split].
  - intros ->. destruct p; reflexivity.
  - intros ->. reflexivity.
  - intros [-> | ->] Hw; unfold step; cbn [at_loc sig resume_condition];
      rewrite Hw; (split; [reflexivity|]); (split; [reflexivity|]);
      eexists; (split; [reflexivity|]); [left | right]; reflexivity.
Qed.

Lemma terminate_polled_at_tests_witness :
  let x := mkSystem (mkSignals false true [Crawler] []) ReadWait false in
  step Woken x = None
  /\ steps [TimedOut; Checked 0; Crawl; Crawl] x
     = Some (mkSystem (mkSignals false true [] []) Exited false).
Proof.
  intros x.
  destruct (terminate_polled_at_tests x eq_refl) as (_ & _ & Hwait).
  destruct (Hwait (or_introl eq_refl) eq_refl) as (Hwoken & _).
  split; [exact Hwoken|].
  destruct (terminate_polled_at_tests
              (mkSystem (mkSignals false true [] []) PauseTest false) eq_refl)
    as (Hexit & _).
  exact (Hexit eq_refl).
Defined.

(** ** How the crawler comes to its end *)

(** The crawler leaves its loop in four ways only: on a set terminate
    event, on the test of the end of the day, on an [exit] that the page
    processor calls inside [interact_with_page], or on an exception that
    leaves one of the calls of the loop body.  A run that ends with the
    crawler out of the loop has the terminate event set, or has passed the
    test of the end of the day, or contains such an exit or exception. *)
Theorem crawl_loop_exits (es : list event) :
  forall x x',
    at_loc x <> Exited ->
    steps es x = Some x' ->
    at_loc x' = Exited ->
    terminate_event (sig x') = true
    \/ In (EndChecked true) es
    \/ (exists status, In (PageExit status) es)
    \/ In Raised es.
Proof.
  induction es as [|e es IH]; intros x x' Hin H Hout.
  - injection H as <-. contradiction.
  - simpl in H. destruct (step e x) as [x1|] eqn:E; [|discriminate].
    assert (Hx1 : at_loc x1 <> Exited
                  \/ terminate_event (sig x1) = true
                  \/ e = EndChecked true
                  \/ (exists status, e = PageExit status)
                  \/ e = Raised).
    { unfold step in E.
      destruct e as [word|t| | | |d| |stop|status| ].
      - left. apply step_command in E. destruct E as (_ & ->). exact Hin.
      - destruct (at_loc x) eqn:L; try discriminate. injection E as <-.
        unfold solve_captcha. left.
        destruct (is_honeypot t); simpl; [congruence|discriminate].
      - destruct (at_loc x) eqn:L; try discriminate. injection E as <-.
        left. discriminate.
      - left. destruct (at_loc x) eqn:L; try discriminate;
          match type of E with (if ?b then _ else _) = _ => destruct b end;
          try discriminate; injection E as <-; discriminate.
      - left. destruct (at_loc x) eqn:L; try discriminate; injection E as <-;
          discriminate.
      - left. destruct (at_loc x) eqn:L; try discriminate.
        destruct (0 <? d); injection E as <-; discriminate.
      - destruct (at_loc x) eqn:L; try discriminate;
          match type of E with (if ?b then _ else _) = _ =>
            destruct b eqn:Eb end;
          injection E as <-;
          try (left; discriminate); right; left; exact Eb.
      - destruct (at_loc x) eqn:L; try discriminate.
        destruct stop; injection E as <-;
          [right; right; left; reflexivity | left; discriminate].
      - right. right. right. left. exists status. reflexivity.
      - right. right. right. right. reflexivity. }
    destruct Hx1 as [Hx1|[Hx1|[Hx1|[[status Hx1]|Hx1]]]].
    + destruct (IH x1 x' Hx1 H Hout) as [Ht|[Hend|[[status Hq]|Hr]]].
      * now left.
      * right. left. now right.
      * right. right. left. exists status. now right.
      * right. right. right. now right.
    + left. eapply terminate_event_stays_set; eassumption.
    + right. left. left. exact Hx1.
    + right. right. left. exists status. left. exact Hx1.
    + right. right. right. left. exact Hx1.
Qed.

(** The front page has nothing left to explore: [interact_with_page] calls
    [exit(0)] after the reading delay, with the terminate event clear and
    the test of the end of the day not reached. *)
Lemma crawl_loop_exits_witness :
  let x := mkSystem (mkSignals false false [] []) NextPage true in
  let es := [PageParsed; TimedOut; PageExit 0] in
  steps es x = Some (mkSystem (mkSignals false false [] []) Exited true)
  /\ (terminate_event (mkSignals false false [] []) = true
      \/ In (EndChecked true) es
      \/ (exists status, In (PageExit status) es)
      \/ In Raised es).
Proof.
  intros x es. split; [reflexivity|].
  apply (@crawl_loop_exits es x
           (mkSystem (mkSignals false false [] []) Exited true));
    [discriminate | reflexivity | reflexivity].
Defined.

(** ** A controller without a configuration *)

(** Built without a configuration the controller generates no schedule
    and does not touch the cron table: every poll returns 0 and leaves
    it as it is, and neither [check_end_time] nor [get_ETA] has an end of
    the day to compare with. *)
Theorem controller_without_configuration
  (fuel : nat) (now next_start t : Z) (tab : list job) (oracle : nat -> Z)
  (n : nat) (ts : list Z) :
  new_controller fuel None now next_start tab oracle n
  = Ok (mkScheduled Returns init tab) n
  /\ polls ts init = (repeat 0 (List.length ts), init)
  /\ check_end_time t init = None
  /\ get_ETA t init = None.
Proof.
  split; [reflexivity|]. split; [|split; reflexivity].
  induction ts as [|t' ts IH]; [reflexivity|].
  change (polls (t' :: ts) init)
    with (let (ds, c'') := polls ts init in (0 :: ds, c'')).
  rewrite IH. reflexivity.
Qed.
